(** * Stock-creation pipeline: form schema, route handlers, submission flow

    A shallow embedding of [server/routes.ts] and
    [client/src/components/dashboard/add-stock-modal.tsx].

    JavaScript values are modelled as an inductive type whose objects are
    finite maps from keys to values.  A number is [NaN], an infinity or a
    finite value given by the rational it denotes; an integer becomes a
    number by rounding to binary64.  Strings are sequences of 8-bit code
    units. *)

From Stdlib Require Import QArith Ascii.
From Stdlib Require DecimalString DecimalPos DecimalZ SpecFloat.
From stdpp Require Import gmap strings list fin_maps.

Local Open Scope Z_scope.
Local Open Scope string_scope.

(** ** JavaScript values *)

Module JS.

(** [Fin q] is a finite number of value [q]; every binary64 value is one
    such [q]. *)
Inductive number : Type :=
| NaN
| Fin (q : Q)
| PosInf
| NegInf.

(** The binary64 value nearest to the positive integer [a], ties going to
    the even significand; [None] when that value exceeds the binary64
    range.  Below [2^53] every integer is a binary64 value.  From there
    on, [a] is cut to the 53 leading bits [m], with [e] bits dropped, and
    the significand goes up by one when the dropped bits [r] are more than
    half of [2^e], or exactly half with [m] odd. *)
Definition round_magnitude (a : Z) : option Z :=
  (if a <? 2 ^ 53 then Some a
   else
     let e := Z.log2 a - 52 in
     let m := a / 2 ^ e in
     let r := a mod 2 ^ e in
     let half := 2 ^ (e - 1) in
     let m' :=
       if r <? half then m
       else if half <? r then m + 1
       else if Z.even m then m else m + 1 in
     let v := m' * 2 ^ e in
     if v <? 2 ^ 1024 then Some v else None)%Z.

(** The Number value of a mathematical integer. *)
Definition of_Z (z : Z) : number :=
  match z with
  | 0 => Fin (inject_Z 0)
  | Z.pos _ =>
      match round_magnitude z with
      | Some v => Fin (inject_Z v)
      | None => PosInf
      end
  | Z.neg _ =>
      match round_magnitude (- z) with
      | Some v => Fin (inject_Z (- v))
      | None => NegInf
      end
  end.

(** The value of a float of the Standard Library's specification of
    IEEE 754, to compare [of_Z] with its rounding. *)
Definition of_spec_float (f : SpecFloat.spec_float) : number :=
  match f with
  | SpecFloat.S754_zero _ => Fin (inject_Z 0)
  | SpecFloat.S754_infinity false => PosInf
  | SpecFloat.S754_infinity true => NegInf
  | SpecFloat.S754_nan => NaN
  | SpecFloat.S754_finite s m e =>
      let n := ((if s then -1 else 1) * Z.pos m)%Z in
      match e with
      | Z.neg k => Fin (Qmake n (2 ^ k))
      | _ => Fin (inject_Z (n * 2 ^ e))
      end
  end.

#[warnings="-register-all"]
Inductive value : Type :=
| Null
| Bool (b : bool)
| Num (n : number)
| Str (s : string)
| Arr (l : list value)
| Obj (o : gmap string value).

(** [ToBoolean] on numbers: [NaN], [0] and [-0] are falsy. *)
Definition truthy (n : number) : bool :=
  match n with
  | NaN => false
  | Fin q => negb (Qeq_bool q 0)
  | PosInf | NegInf => true
  end.

(** [a || b] on numbers. *)
Definition or (a b : number) : number := if truthy a then a else b.

(** [a === b] on numbers: [NaN] differs from everything. *)
Definition strict_eq (a b : number) : bool :=
  match a, b with
  | Fin p, Fin q => Qeq_bool p q
  | PosInf, PosInf | NegInf, NegInf => true
  | _, _ => false
  end.

(** [parseInt(string)] with the radix left undefined: leading white space
    is dropped, then an optional sign, then an optional [0x]/[0X] prefix
    (which switches to radix 16); the longest run of digits of the radix is
    the result, and [NaN] when that run is empty. *)
Definition is_white_space (c : ascii) : bool :=
  bool_decide (nat_of_ascii c ∈ [9; 10; 11; 12; 13; 32; 160]%nat).

Fixpoint trim_start (s : string) : string :=
  match s with
  | String c s' => if is_white_space c then trim_start s' else s
  | EmptyString => EmptyString
  end.

Definition digit_value (c : ascii) : option Z :=
  let n := Z.of_nat (nat_of_ascii c) in
  if ((48 <=? n) && (n <=? 57))%Z then Some (n - 48)
  else if ((97 <=? n) && (n <=? 122))%Z then Some (n - 87)
  else if ((65 <=? n) && (n <=? 90))%Z then Some (n - 55)
  else None.

Fixpoint digits (radix : Z) (s : string) : list Z :=
  match s with
  | String c s' =>
      match digit_value c with
      | Some d => if (d <? radix)%Z then d :: digits radix s' else []
      | None => []
      end
  | EmptyString => []
  end.

Definition math_int (radix : Z) (ds : list Z) : Z :=
  fold_left (fun acc d => acc * radix + d) ds 0.

Definition strip_sign (s : string) : Z * string :=
  match s with
  | String "-"%char r => (-1, r)
  | String "+"%char r => (1, r)
  | _ => (1, s)
  end.

Definition strip_prefix (s : string) : Z * string :=
  match s with
  | String "0"%char (String "x"%char r) => (16, r)
  | String "0"%char (String "X"%char r) => (16, r)
  | _ => (10, s)
  end.

Definition parseInt (s : string) : number :=
  let '(sign, s1) := strip_sign (trim_start s) in
  let '(radix, s2) := strip_prefix s1 in
  match digits radix s2 with
  | [] => NaN
  | ds => of_Z (sign * math_int radix ds)
  end.

End JS.

(** ** The schema library

    The part of zod the program uses: string and number schemas with
    length and bound checks, object schemas, [extend] and [safeParse]. *)

Module Zod.

Inductive ZodIssueCode : Type := invalid_type | too_small | too_big.

(** [message] is the text given with the check that failed, [None] when
    the schema gives none and the library's default text is used. *)
Record ZodIssue : Type := {
  code : ZodIssueCode;
  path : list string;
  message : option string
}.

Inductive Check : Type :=
| check_min (n : Z) (msg : option string)
| check_max (n : Z) (msg : option string).

Inductive ZodType : Type :=
| ZodString (checks : list Check)
| ZodNumber (checks : list Check).

(** [z.string()], [z.number()], [.min(n, msg)] and [.max(n, msg)]. *)
Definition z_string : ZodType := ZodString [].
Definition z_number : ZodType := ZodNumber [].

Definition add_check (c : Check) (t : ZodType) : ZodType :=
  match t with
  | ZodString cs => ZodString (cs ++ [c])%list
  | ZodNumber cs => ZodNumber (cs ++ [c])%list
  end.

Definition min (n : Z) (msg : option string) : ZodType → ZodType :=
  add_check (check_min n msg).
Definition max (n : Z) (msg : option string) : ZodType → ZodType :=
  add_check (check_max n msg).

(** A string is measured by its length, a number by its value. *)
Definition run_check (measure : Q) (p : list string) (c : Check)
  : list ZodIssue :=
  match c with
  | check_min n msg =>
      if Qle_bool (inject_Z n) measure then []
      else [{| code := too_small; path := p; message := msg |}]
  | check_max n msg =>
      if Qle_bool measure (inject_Z n) then []
      else [{| code := too_big; path := p; message := msg |}]
  end.

Definition str_measure (s : String.string) : Q :=
  inject_Z (Z.of_nat (String.length s)).

(** The checks on an infinity: [+Infinity] is above every bound and
    [-Infinity] below. *)
Definition run_check_infinity (positive : bool) (p : list String.string)
    (c : Check) : list ZodIssue :=
  match c with
  | check_min n msg =>
      if positive then []
      else [{| code := too_small; path := p; message := msg |}]
  | check_max n msg =>
      if positive
      then [{| code := too_big; path := p; message := msg |}]
      else []
  end.

(** A value of the wrong type (a missing key, [NaN] for a number) gives one
    [invalid_type] issue and the checks are not run; otherwise every check
    that fails adds its issue.  The infinities are numbers. *)
Definition parse_type (t : ZodType) (p : list string)
    (input : option JS.value) : list ZodIssue :=
  match t, input with
  | ZodString cs, Some (JS.Str s) => flat_map (run_check (str_measure s) p) cs
  | ZodNumber cs, Some (JS.Num (JS.Fin q)) => flat_map (run_check q p) cs
  | ZodNumber cs, Some (JS.Num JS.PosInf) =>
      flat_map (run_check_infinity true p) cs
  | ZodNumber cs, Some (JS.Num JS.NegInf) =>
      flat_map (run_check_infinity false p) cs
  | _, _ => [{| code := invalid_type; path := p; message := None |}]
  end.

(** The shape of an object schema, in key order. *)
Definition ZodObject : Type := list (String.string * ZodType).

Definition shape_lookup (k : String.string) (sh : ZodObject) : option ZodType :=
  snd <$> List.find (fun kt => bool_decide (fst kt = k)) sh.

(** [base.extend(aug)] builds the shape [{...base, ...aug}]: a key of
    [base] keeps its place and takes the schema of [aug] when [aug] has
    it; the keys only [aug] has follow. *)
Definition extend (aug base : ZodObject) : ZodObject :=
  (map (fun kt => (fst kt, default (snd kt) (shape_lookup (fst kt) aug))) base
   ++ List.filter
        (fun kt => negb (bool_decide (is_Some (shape_lookup (fst kt) base))))
        aug)%list.

(** Keys outside the shape are dropped from the parsed data. *)
Definition strip (sh : ZodObject) (o : gmap String.string JS.value)
  : gmap String.string JS.value :=
  foldr (fun kt acc =>
           match o !! fst kt with
           | Some v => <[fst kt := v]> acc
           | None => acc
           end) ∅ sh.

Inductive SafeParseResult : Type :=
| Success (data : gmap String.string JS.value)
| Failure (errors : list ZodIssue).

Definition object_issues (sh : ZodObject) (o : gmap String.string JS.value)
  : list ZodIssue :=
  flat_map (fun kt => parse_type (snd kt) [fst kt] (o !! fst kt)) sh.

Definition safeParse (sh : ZodObject) (input : option JS.value)
  : SafeParseResult :=
  match input with
  | Some (JS.Obj o) =>
      match object_issues sh o with
      | [] => Success (strip sh o)
      | issues => Failure issues
      end
  | _ => Failure [{| code := invalid_type; path := []; message := None |}]
  end.

Definition success (r : SafeParseResult) : bool :=
  match r with Success _ => true | Failure _ => false end.

End Zod.

Notation "x |> f" := (f x) (at level 45, left associativity, only parsing).

(** A JavaScript object: a finite map from keys to values. *)
Abbreviation object := (gmap string JS.value).

(** ** The shared schema *)

(** Modelled from the spec: [insertStockSchema] of [@shared/schema], whose
    source is not part of the repository's files at hand.  The rules are
    those of the specification's validation section: symbol required with
    length 1 to 5; name, price, change, changePercent and marketCap
    required non-empty strings; volume required, numeric, at least 0. *)
Definition insertStockSchema : Zod.ZodObject := [
  ("symbol", Zod.z_string |> Zod.min 1 None |> Zod.max 5 None);
  ("name", Zod.z_string |> Zod.min 1 None);
  ("price", Zod.z_string |> Zod.min 1 None);
  ("change", Zod.z_string |> Zod.min 1 None);
  ("changePercent", Zod.z_string |> Zod.min 1 None);
  ("volume", Zod.z_number |> Zod.min 0 None);
  ("marketCap", Zod.z_string |> Zod.min 1 None)
].


(** ** The client: form state, mutation and notifications *)

Record Toast : Type := {
  title : string;
  description : string;
  variant : option string
}.

(** A request handed to the network.  [body] is the data that
    [JSON.stringify] is applied to. *)
Record Request : Type := {
  url : string;
  method : string;
  headers : list (string * string);
  body : object
}.

(** What the component owns or touches: the dialog flag, the form's values
    and errors, the notifications shown, the query cache (each cached key
    with its invalidated flag), the mutation's pending flag, and the
    requests issued so far. *)
Record ModalState : Type := {
  open : bool;
  values : object;
  errors : list Zod.ZodIssue;
  toasts : list Toast;
  queries : gmap (list string) bool;
  isPending : bool;
  sent : list Request
}.

Definition setOpen (b : bool) (st : ModalState) : ModalState :=
  {| open := b; values := values st; errors := errors st;
     toasts := toasts st; queries := queries st;
     isPending := isPending st; sent := sent st |}.

Definition set_values (v : object) (st : ModalState) : ModalState :=
  {| open := open st; values := v; errors := errors st;
     toasts := toasts st; queries := queries st;
     isPending := isPending st; sent := sent st |}.

Definition set_errors (e : list Zod.ZodIssue) (st : ModalState) : ModalState :=
  {| open := open st; values := values st; errors := e;
     toasts := toasts st; queries := queries st;
     isPending := isPending st; sent := sent st |}.

Definition set_isPending (b : bool) (st : ModalState) : ModalState :=
  {| open := open st; values := values st; errors := errors st;
     toasts := toasts st; queries := queries st;
     isPending := b; sent := sent st |}.

(** [toast({...})] *)
Definition toast (t : Toast) (st : ModalState) : ModalState :=
  {| open := open st; values := values st; errors := errors st;
     toasts := (toasts st ++ [t])%list; queries := queries st;
     isPending := isPending st; sent := sent st |}.

(** [queryClient.invalidateQueries({ queryKey })]: every cached query whose
    key starts with [queryKey] is marked invalidated. *)
Definition invalidateQueries (queryKey : list string) (st : ModalState)
  : ModalState :=
  {| open := open st; values := values st; errors := errors st;
     toasts := toasts st;
     queries :=
       map_imap (fun k inv =>
                   Some (inv || bool_decide (queryKey `prefix_of` k)))
                (queries st);
     isPending := isPending st; sent := sent st |}.

Definition send (r : Request) (st : ModalState) : ModalState :=
  {| open := open st; values := values st; errors := errors st;
     toasts := toasts st; queries := queries st;
     isPending := isPending st; sent := (sent st ++ [r])%list |}.

(** [field.onChange(v)] of the field [name]. *)
Definition field_onChange (name : string) (v : JS.value) (st : ModalState)
  : ModalState :=
  set_values (<[name := v]> (values st)) st.

(** [form.reset()]: back to the default values, errors cleared. *)
Definition form_reset (defaultValues : object) (st : ModalState) : ModalState :=
  set_errors [] (set_values defaultValues st).

(** [form.handleSubmit(onSubmit)]: the resolver validates the values; the
    callback runs on the parsed data only when there is no issue. *)
Definition handleSubmit (schema : Zod.ZodObject)
    (onSubmit : object → ModalState → ModalState) (st : ModalState)
  : ModalState :=
  match Zod.safeParse schema (Some (JS.Obj (values st))) with
  | Zod.Success data => onSubmit data (set_errors [] st)
  | Zod.Failure issues => set_errors issues st
  end.

(** How a request ends. *)
Inductive FetchOutcome : Type :=
| NetworkError
| Responded (status : nat).

(** Modelled from the spec: [apiRequest] of [@/lib/queryClient], whose
    source is not at hand.  The request fails on any non-2xx response or
    network error, and succeeds on a 2xx response. *)
Definition apiRequest_ok (o : FetchOutcome) : bool :=
  match o with
  | NetworkError => false
  | Responded status => (200 <=? status)%nat && (status <=? 299)%nat
  end.

(** [useMutation({ mutationFn, onSuccess, onError })].  No [retry] option
    is given, and a mutation that fails is not run again. *)
Record Mutation : Type := {
  mutationFn : object → Request;
  onSuccess : ModalState → ModalState;
  onError : ModalState → ModalState
}.

Definition mutate (m : Mutation) (data : object) (st : ModalState)
  : ModalState :=
  set_isPending true (send (mutationFn m data) st).

Definition settle (m : Mutation) (o : FetchOutcome) (st : ModalState)
  : ModalState :=
  if apiRequest_ok o then onSuccess m (set_isPending false st)
  else onError m (set_isPending false st).

(** The pieces of a component that decide its behaviour. *)
Record Component : Type := {
  schema : Zod.ZodObject;
  defaults : object;
  mutation : Mutation;
  submit : object → ModalState → ModalState;
  volume_onChange : string → ModalState → ModalState
}.

Inductive Event : Type :=
| OpenChange (b : bool)
| FieldChange (name : string) (v : JS.value)
| VolumeInput (raw : string)
| Submit
| Settled (o : FetchOutcome).

(** One event of the dialog.  The submit button is disabled while the
    mutation is pending; a request can only settle while it is pending. *)
Definition step (c : Component) (e : Event) (st : ModalState) : ModalState :=
  match e with
  | OpenChange b => setOpen b st
  | FieldChange name v => field_onChange name v st
  | VolumeInput raw => volume_onChange c raw st
  | Submit =>
      if isPending st then st else handleSubmit (schema c) (submit c) st
  | Settled o =>
      if isPending st then settle (mutation c) o st else st
  end.

Definition run (c : Component) (es : list Event) (st : ModalState)
  : ModalState :=
  fold_left (fun s e => step c e s) es st.

Definition initial (c : Component) : ModalState :=
  {| open := false; values := defaults c; errors := []; toasts := [];
     queries := ∅; isPending := false; sent := [] |}.

(** *** The component, as first given in [add-stock-modal.tsx] *)

Module AddStockModal.

Definition formSchema : Zod.ZodObject :=
  insertStockSchema |> Zod.extend [
    ("symbol", Zod.z_string |> Zod.min 1 (Some "Symbol is required")
                          |> Zod.max 5 (Some "Symbol must be 5 characters or less"));
    ("name", Zod.z_string |> Zod.min 1 (Some "Company name is required"));
    ("price", Zod.z_string |> Zod.min 1 (Some "Price is required"));
    ("change", Zod.z_string |> Zod.min 1 (Some "Change is required"));
    ("changePercent", Zod.z_string |> Zod.min 1 (Some "Change percent is required"));
    ("volume", Zod.z_number |> Zod.min 0 (Some "Volume must be positive"));
    ("marketCap", Zod.z_string |> Zod.min 1 (Some "Market cap is required"))
  ].

Definition defaultValues : object :=
  {[ "symbol" := JS.Str "";
     "name" := JS.Str "";
     "price" := JS.Str "";
     "change" := JS.Str "";
     "changePercent" := JS.Str "";
     "volume" := JS.Num (JS.of_Z 0);
     "marketCap" := JS.Str "" ]}.

Definition createStockMutation : Mutation := {|
  mutationFn := fun data =>
    {| url := "/api/stocks";
       method := "POST";
       headers := [("Content-Type", "application/json")];
       body := data |};
  onSuccess := fun st =>
    st |> invalidateQueries ["/api/stocks"]
       |> toast {| title := "Success";
                   description := "Stock added to watchlist successfully!";
                   variant := None |}
       |> form_reset defaultValues
       |> setOpen false;
  onError := fun st =>
    st |> toast {| title := "Error";
                   description :=
                     "Failed to add stock to watchlist. Please try again.";
                   variant := Some "destructive" |}
|}.

Definition onSubmit (data : object) : ModalState → ModalState :=
  mutate createStockMutation data.

(** [onChange={(e) => field.onChange(parseInt(e.target.value) || 0)}] *)
Definition volume_field_onChange (raw : string) : ModalState → ModalState :=
  field_onChange "volume" (JS.Num (JS.or (JS.parseInt raw) (JS.of_Z 0))).

Definition component : Component := {|
  schema := formSchema;
  defaults := defaultValues;
  mutation := createStockMutation;
  submit := onSubmit;
  volume_onChange := volume_field_onChange
|}.

End AddStockModal.

(** *** The component, as given a second time in [add-stock-modal.tsx] *)

Module AddStockModal2.

Definition formSchema : Zod.ZodObject :=
  insertStockSchema |> Zod.extend [
    ("symbol", Zod.z_string |> Zod.min 1 (Some "Symbol is required")
                          |> Zod.max 5 (Some "Symbol must be 5 characters or less"));
    ("name", Zod.z_string |> Zod.min 1 (Some "Company name is required"));
    ("price", Zod.z_string |> Zod.min 1 (Some "Price is required"));
    ("change", Zod.z_string |> Zod.min 1 (Some "Change is required"));
    ("changePercent", Zod.z_string |> Zod.min 1 (Some "Change percent is required"));
    ("volume", Zod.z_number |> Zod.min 0 (Some "Volume must be positive"));
    ("marketCap", Zod.z_string |> Zod.min 1 (Some "Market cap is required"))
  ].

Definition defaultValues : object :=
  {[ "symbol" := JS.Str "";
     "name" := JS.Str "";
     "price" := JS.Str "";
     "change" := JS.Str "";
     "changePercent" := JS.Str "";
     "volume" := JS.Num (JS.of_Z 0);
     "marketCap" := JS.Str "" ]}.

Definition createStockMutation : Mutation := {|
  mutationFn := fun data =>
    {| url := "/api/stocks";
       method := "POST";
       headers := [("Content-Type", "application/json")];
       body := data |};
  onSuccess := fun st =>
    st |> invalidateQueries ["/api/stocks"]
       |> toast {| title := "Success";
                   description := "Stock added to watchlist successfully!";
                   variant := None |}
       |> form_reset defaultValues
       |> setOpen false;
  onError := fun st =>
    st |> toast {| title := "Error";
                   description :=
                     "Failed to add stock to watchlist. Please try again.";
                   variant := Some "destructive" |}
|}.

Definition onSubmit (data : object) : ModalState → ModalState :=
  mutate createStockMutation data.

Definition volume_field_onChange (raw : string) : ModalState → ModalState :=
  field_onChange "volume" (JS.Num (JS.or (JS.parseInt raw) (JS.of_Z 0))).

Definition component : Component := {|
  schema := formSchema;
  defaults := defaultValues;
  mutation := createStockMutation;
  submit := onSubmit;
  volume_onChange := volume_field_onChange
|}.

End AddStockModal2.

(** ** The server: storage interface and route handlers *)

(** A computation over the store that returns or throws. *)
Inductive Outcome (A : Type) : Type :=
| Return (a : A)
| Throw (error : JS.value).
Arguments Return {A} a.
Arguments Throw {A} error.

Definition M (Store A : Type) : Type := Store → Outcome A * Store.

Definition ret {Store A} (a : A) : M Store A := fun s => (Return a, s).

Definition bind {Store A B} (m : M Store A) (k : A → M Store B) : M Store B :=
  fun s =>
    match m s with
    | (Return a, s') => k a s'
    | (Throw e, s') => (Throw e, s')
    end.

(** [try { m } catch (error) { h error }] *)
Definition try_catch {Store A} (m : M Store A) (h : JS.value → A)
  : Store → A * Store :=
  fun s =>
    match m s with
    | (Return a, s') => (a, s')
    | (Throw e, s') => (h e, s')
    end.

Notation "'let!' x ':=' m 'in' k" := (bind m (fun x => k))
  (at level 10, x name, m at level 100, k at level 200).

(** The operations of [storage] that the routes call.  The module
    [./storage] is not at hand; the handlers are stated over any
    implementation of the interface. *)
Class IStorage (Store : Type) : Type := {
  getPortfolio : JS.number → M Store (option object);
  getAllStocks : M Store (list object);
  getTransactions : JS.number → M Store (list object);
  createStock : object → M Store object
}.

Inductive Body : Type :=
| Json (v : JS.value)
| Message (message : string)
| Invalid (message : string) (errors : list Zod.ZodIssue).

Record Response : Type := { status : nat; body_of : Body }.

(** [res.json(v)] answers 200; [res.status(n).json(...)] answers [n]. *)
Definition res_json (v : JS.value) : Response :=
  {| status := 200; body_of := Json v |}.
Definition res_status_json (n : nat) (b : Body) : Response :=
  {| status := n; body_of := b |}.

Inductive Req : Type :=
| GET_portfolio (userId : string)
| GET_stocks
| GET_transactions (userId : string)
| POST_stocks (body : option JS.value).

Section Routes.

Context {Store : Type} `{storage : IStorage Store}.

Definition get_portfolio (param : string) : Store → Response * Store :=
  try_catch
    (let userId := JS.parseInt param in
     let! portfolio := getPortfolio userId in
     match portfolio with
     | None => ret (res_status_json 404 (Message "Portfolio not found"))
     | Some p => ret (res_json (JS.Obj p))
     end)
    (fun error => res_status_json 500 (Message "Failed to fetch portfolio")).

Definition get_stocks : Store → Response * Store :=
  try_catch
    (let! stocks := getAllStocks in
     ret (res_json (JS.Arr (JS.Obj <$> stocks))))
    (fun error => res_status_json 500 (Message "Failed to fetch stocks")).

Definition get_transactions (param : string) : Store → Response * Store :=
  try_catch
    (let userId := JS.parseInt param in
     let! transactions := getTransactions userId in
     ret (res_json (JS.Arr (JS.Obj <$> transactions))))
    (fun error => res_status_json 500 (Message "Failed to fetch transactions")).

Definition post_stocks (body : option JS.value) : Store → Response * Store :=
  try_catch
    (match Zod.safeParse insertStockSchema body with
     | Zod.Failure errors =>
         ret (res_status_json 400 (Invalid "Invalid stock data" errors))
     | Zod.Success data =>
         let! stock := createStock data in
         ret (res_status_json 201 (Json (JS.Obj stock)))
     end)
    (fun error => res_status_json 500 (Message "Failed to create stock")).

Definition registerRoutes (r : Req) : Store → Response * Store :=
  match r with
  | GET_portfolio userId => get_portfolio userId
  | GET_stocks => get_stocks
  | GET_transactions userId => get_transactions userId
  | POST_stocks body => post_stocks body
  end.

End Routes.

(** Modelled from the spec: the storage of [./storage], whose source is
    not at hand.  An in-memory store: portfolios and transactions are keyed
    by a user identifier, stocks are kept in insertion order, and
    [createStock] returns the validated record with a server-assigned
    identifier, persisted before it returns. *)
Record MemStore : Type := {
  portfolios : list object;
  stocks : list object;
  transactions : list object;
  currentId : Z
}.

Definition has_userId (userId : JS.number) (o : object) : bool :=
  match o !! "userId" with
  | Some (JS.Num n) => JS.strict_eq n userId
  | _ => false
  end.

#[export] Instance MemStorage : IStorage MemStore := {|
  getPortfolio := fun userId s =>
    (Return (List.find (has_userId userId) (portfolios s)), s);
  getAllStocks := fun s => (Return (stocks s), s);
  getTransactions := fun userId s =>
    (Return (List.filter (has_userId userId) (transactions s)), s);
  createStock := fun insertStock s =>
    let stock := <["id" := JS.Num (JS.of_Z (currentId s))]> insertStock in
    (Return stock,
     {| portfolios := portfolios s;
        stocks := (stocks s ++ [stock])%list;
        transactions := transactions s;
        currentId := currentId s + 1 |})
|}.

(** A storage every operation of which throws [error]. *)
Definition FaultyStorage (error : JS.value) : IStorage unit := {|
  getPortfolio := fun _ s => (Throw error, s);
  getAllStocks := fun s => (Throw error, s);
  getTransactions := fun _ s => (Throw error, s);
  createStock := fun _ s => (Throw error, s)
|}.

(** ** What the specification says, as predicates *)

(** A valid creation payload: symbol of length 1 to 5, every other string
    field non-empty, volume at least 0. *)
Definition string_fields : list string :=
  ["name"; "price"; "change"; "changePercent"; "marketCap"].

Definition stock_fields : list string :=
  ["symbol"; "name"; "price"; "change"; "changePercent"; "volume"; "marketCap"].

Definition symbol_ok (v : option JS.value) : bool :=
  match v with
  | Some (JS.Str s) => (1 <=? String.length s)%nat && (String.length s <=? 5)%nat
  | _ => false
  end.

Definition nonempty_string (v : option JS.value) : bool :=
  match v with
  | Some (JS.Str s) => (1 <=? String.length s)%nat
  | _ => false
  end.

Definition volume_ok (v : option JS.value) : bool :=
  match v with
  | Some (JS.Num (JS.Fin q)) => Qle_bool 0 q
  | Some (JS.Num JS.PosInf) => true
  | _ => false
  end.

Definition valid_creation_payload (o : object) : bool :=
  symbol_ok (o !! "symbol")
  && forallb (fun k => nonempty_string (o !! k)) string_fields
  && volume_ok (o !! "volume").

(** The schema with the texts of its checks forgotten. *)
Definition erase_check (c : Zod.Check) : Zod.Check :=
  match c with
  | Zod.check_min n _ => Zod.check_min n None
  | Zod.check_max n _ => Zod.check_max n None
  end.

Definition erase_type (t : Zod.ZodType) : Zod.ZodType :=
  match t with
  | Zod.ZodString cs => Zod.ZodString (map erase_check cs)
  | Zod.ZodNumber cs => Zod.ZodNumber (map erase_check cs)
  end.

Definition erase_shape (sh : Zod.ZodObject) : Zod.ZodObject :=
  map (fun kt => (fst kt, erase_type (snd kt))) sh.

Definition erase_issue (i : Zod.ZodIssue) : Zod.ZodIssue :=
  {| Zod.code := Zod.code i; Zod.path := Zod.path i; Zod.message := None |}.

(** The storage operation that the route calls throws [e]. *)
Definition Threw {Store} `{IStorage Store} (r : Req) (st : Store)
    (e : JS.value) : Prop :=
  match r with
  | GET_portfolio userId =>
      fst (getPortfolio (JS.parseInt userId) st) = Throw e
  | GET_stocks => fst (getAllStocks st) = Throw e
  | GET_transactions userId =>
      fst (getTransactions (JS.parseInt userId) st) = Throw e
  | POST_stocks body =>
      ∃ data, Zod.safeParse insertStockSchema body = Zod.Success data
              ∧ fst (createStock data st) = Throw e
  end.

(** The fixed message of a route's 500 answer. *)
Definition generic_message (r : Req) : string :=
  match r with
  | GET_portfolio _ => "Failed to fetch portfolio"
  | GET_stocks => "Failed to fetch stocks"
  | GET_transactions _ => "Failed to fetch transactions"
  | POST_stocks _ => "Failed to create stock"
  end.

(** The messages the routes answer with. *)
Definition generic_messages : list string :=
  ["Portfolio not found"; "Failed to fetch portfolio"; "Failed to fetch stocks";
   "Failed to fetch transactions"; "Failed to create stock"].

(** ** Sample data *)

Definition aapl : object :=
  {[ "symbol" := JS.Str "AAPL"; "name" := JS.Str "Apple Inc.";
     "price" := JS.Str "173.50"; "change" := JS.Str "4.12";
     "changePercent" := JS.Str "2.4"; "volume" := JS.Num (JS.of_Z 45200000);
     "marketCap" := JS.Str "$2.7T" ]}.

Definition fresh_store : MemStore :=
  {| portfolios := []; stocks := []; transactions := []; currentId := 1 |}.

Definition other_users_store : MemStore :=
  {| portfolios := [];
     stocks := [];
     transactions :=
       [ {[ "userId" := JS.Num (JS.of_Z 2); "type" := JS.Str "buy" ]} ];
     currentId := 1 |}.

(** The form filled in with the sample stock, the stock list cached. *)
Definition filled_form : ModalState :=
  {| open := true; values := aapl; errors := []; toasts := [];
     queries := {[ ["/api/stocks"] := false ]};
     isPending := false; sent := [] |}.

Definition in_flight : ModalState :=
  step AddStockModal.component Submit filled_form.

(** ** Notions used by the further properties *)

(** The object literal handed to [extend] in [formSchema]. *)
Definition form_overrides : Zod.ZodObject := [
  ("symbol", Zod.z_string |> Zod.min 1 (Some "Symbol is required")
                          |> Zod.max 5 (Some "Symbol must be 5 characters or less"));
  ("name", Zod.z_string |> Zod.min 1 (Some "Company name is required"));
  ("price", Zod.z_string |> Zod.min 1 (Some "Price is required"));
  ("change", Zod.z_string |> Zod.min 1 (Some "Change is required"));
  ("changePercent", Zod.z_string |> Zod.min 1 (Some "Change percent is required"));
  ("volume", Zod.z_number |> Zod.min 0 (Some "Volume must be positive"));
  ("marketCap", Zod.z_string |> Zod.min 1 (Some "Market cap is required"))
].

(** The text shown under a string field left empty. *)
Definition required_messages : list (string * string) := [
  ("symbol", "Symbol is required");
  ("name", "Company name is required");
  ("price", "Price is required");
  ("change", "Change is required");
  ("changePercent", "Change percent is required");
  ("marketCap", "Market cap is required")
].

(** What the user does, as opposed to the network. *)
Definition user_event (e : Event) : bool :=
  match e with
  | Settled _ => false
  | _ => true
  end.

(** The volume is written through its input only. *)
Definition keeps_volume_input (e : Event) : bool :=
  match e with
  | FieldChange name _ => negb (bool_decide (name = "volume"))
  | _ => true
  end.

(** An integer or an infinity: neither [NaN] nor a fraction. *)
Definition whole_number (n : JS.number) : Prop :=
  n = JS.PosInf ∨ n = JS.NegInf ∨ ∃ z, n = JS.Fin (inject_Z z).

Definition volume_is_whole (st : ModalState) : Prop :=
  ∃ n, values st !! "volume" = Some (JS.Num n) ∧ whole_number n.

(** What the volume field holds after [raw] is typed in. *)
Definition stored_volume (raw : string) : JS.number :=
  JS.or (JS.parseInt raw) (JS.of_Z 0).

(** The rule "the integer parse when the text parses to a non-zero
    integer, and 0 otherwise", read on the value stored. *)
Definition stores_integer_parse_or_zero (raw : string) : Prop :=
  (∃ z, z ≠ 0 ∧ JS.parseInt raw = JS.Fin (inject_Z z)
        ∧ stored_volume raw = JS.Fin (inject_Z z))
  ∨ ((¬ ∃ z, z ≠ 0 ∧ JS.parseInt raw = JS.Fin (inject_Z z))
     ∧ stored_volume raw = JS.Fin (inject_Z 0)).

(** A volume text too long for binary64: 1 followed by 309 zeros. *)
Definition overflow_text : string :=
  "1000000000000000000000000000000000000000000000000000000000000000000000000000000000000000000000000000000000000000000000000000000000000000000000000000000000000000000000000000000000000000000000000000000000000000000000000000000000000000000000000000000000000000000000000000000000000000000000000000000000000000000000".

(** A request as [mutationFn] builds it, with data that satisfies the rules
    of the form. *)
Definition well_formed_request (r : Request) : Prop :=
  url r = "/api/stocks"
  ∧ method r = "POST"
  ∧ headers r = [("Content-Type", "application/json")]
  ∧ valid_creation_payload (body r) = true.

Definition in_flight_count (st : ModalState) : nat :=
  if isPending st then 1 else 0.

(** A base schema that names two of the fields and puts no rule on them. *)
Definition lax_base : Zod.ZodObject :=
  [("volume", Zod.z_number); ("symbol", Zod.z_string)].

(** A text that ends a run of decimal digits: empty, or starting with a
    character that is neither a decimal digit nor [x] or [X]. *)
Definition ends_number (rest : string) : bool :=
  match rest with
  | EmptyString => true
  | String c _ =>
      match JS.digit_value c with
      | Some d => (10 <=? d)%Z && negb (d =? 33)%Z
      | None => true
      end
  end.

(** A pending submission with three queries in the cache. *)
Definition in_flight_cached : ModalState :=
  {| open := true; values := aapl; errors := []; toasts := [];
     queries := {[ ["/api/stocks"] := false;
                   ["/api/stocks"; "AAPL"] := false;
                   ["/api/portfolio"; "1"] := false ]};
     isPending := true; sent := [] |}.

(** The form with every field but the symbol filled in. *)
Definition long_symbol_form : ModalState :=
  field_onChange "symbol" (JS.Str "GOOGLE") filled_form.

(** ** Proof steps used more than once *)

Ltac schema_cbn :=
  cbn [Zod.parse_type Zod.min Zod.max Zod.add_check Zod.z_string Zod.z_number
       app flat_map Zod.run_check Zod.str_measure
       nonempty_string symbol_ok volume_ok andb];
  unfold Zod.str_measure.

Ltac in_literal :=
  unfold generic_messages;
  repeat first [apply list_elem_of_here | apply list_elem_of_further].

Ltac run_route :=
  unfold get_portfolio, get_stocks, get_transactions, post_stocks,
    try_catch, bind, ret, res_json, res_status_json.

(** * Properties *)

Example parseInt_signed_prefix : JS.parseInt "  -42px" = JS.of_Z (-42).
Proof. reflexivity. Qed.
Example parseInt_hex : JS.parseInt "0x1F" = JS.of_Z 31.
Proof. reflexivity. Qed.
Example parseInt_empty : JS.parseInt "" = JS.NaN.
Proof. reflexivity. Qed.
Example parseInt_exponent : JS.parseInt "1e5" = JS.of_Z 1.
Proof. reflexivity. Qed.
Example parseInt_letters : JS.parseInt "abc" = JS.NaN.
Proof. reflexivity. Qed.
Example parseInt_bare_prefix : JS.parseInt "0x" = JS.NaN.
Proof. reflexivity. Qed.

Example formSchema_accepts_aapl :
  Zod.safeParse AddStockModal.formSchema (Some (JS.Obj aapl)) = Zod.Success aapl.
Proof. vm_compute. reflexivity. Qed.

Example formSchema_rejects_empty_symbol :
  Zod.safeParse AddStockModal.formSchema
    (Some (JS.Obj (<["symbol" := JS.Str ""]> aapl)))
  = Zod.Failure [{| Zod.code := Zod.too_small; Zod.path := ["symbol"];
                    Zod.message := Some "Symbol is required" |}].
Proof. vm_compute. reflexivity. Qed.

Example formSchema_rejects_long_symbol :
  Zod.safeParse AddStockModal.formSchema
    (Some (JS.Obj (<["symbol" := JS.Str "GOOGLE"]> aapl)))
  = Zod.Failure [{| Zod.code := Zod.too_big; Zod.path := ["symbol"];
                    Zod.message := Some "Symbol must be 5 characters or less" |}].
Proof. vm_compute. reflexivity. Qed.

Example post_aapl_fresh_store :
  post_stocks (Some (JS.Obj aapl))
    {| portfolios := []; stocks := []; transactions := []; currentId := 1 |}
  = ({| status := 201;
        body_of := Json (JS.Obj (<["id" := JS.Num (JS.of_Z 1)]> aapl)) |},
     {| portfolios := []; stocks := [<["id" := JS.Num (JS.of_Z 1)]> aapl];
        transactions := []; currentId := 2 |}).
Proof. vm_compute. reflexivity. Qed.

(** ** Schemas *)

Section SchemaLemmas.

Implicit Types (sh : Zod.ZodObject) (o : object) (p : list string).

Lemma Qle_bool_inject_Z (a b : Z) :
  Qle_bool (inject_Z a) (inject_Z b) = (a <=? b)%Z.
Proof. unfold Qle_bool. simpl. by rewrite !Z.mul_1_r. Qed.

Lemma run_check_erase q p c :
  Zod.run_check q p (erase_check c) = map erase_issue (Zod.run_check q p c).
Proof. destruct c; simpl; case_match; reflexivity. Qed.

Lemma flat_map_erase q p cs :
  flat_map (Zod.run_check q p) (map erase_check cs)
  = map erase_issue (flat_map (Zod.run_check q p) cs).
Proof.
  induction cs as [|c cs IH]; simpl; [reflexivity|].
  by rewrite map_app, run_check_erase, IH.
Qed.

Lemma run_check_infinity_erase b p c :
  Zod.run_check_infinity b p (erase_check c)
  = map erase_issue (Zod.run_check_infinity b p c).
Proof. by destruct c, b. Qed.

Lemma flat_map_infinity_erase b p cs :
  flat_map (Zod.run_check_infinity b p) (map erase_check cs)
  = map erase_issue (flat_map (Zod.run_check_infinity b p) cs).
Proof.
  induction cs as [|c cs IH]; simpl; [reflexivity|].
  by rewrite map_app, run_check_infinity_erase, IH.
Qed.

Lemma parse_type_erase t p v :
  Zod.parse_type (erase_type t) p v = map erase_issue (Zod.parse_type t p v).
Proof.
  destruct t as [cs|cs]; simpl.
  - destruct v as [[| | | s | |]|]; try reflexivity. apply flat_map_erase.
  - destruct v as [[| |[|q| |]| | |]|]; try reflexivity;
      [apply flat_map_erase|apply flat_map_infinity_erase..].
Qed.

Lemma object_issues_erase sh o :
  Zod.object_issues (erase_shape sh) o = map erase_issue (Zod.object_issues sh o).
Proof.
  unfold Zod.object_issues.
  induction sh as [|[k t] sh IH]; simpl; [reflexivity|].
  by rewrite map_app, parse_type_erase, IH.
Qed.

(** Forgetting the texts changes no verdict. *)
Lemma success_erase sh input :
  Zod.success (Zod.safeParse (erase_shape sh) input)
  = Zod.success (Zod.safeParse sh input).
Proof.
  destruct input as [[| | | | |o]|]; try reflexivity.
  simpl. rewrite object_issues_erase.
  by destruct (Zod.object_issues sh o).
Qed.

Lemma lookup_strip sh o k :
  Zod.strip sh o !! k = if bool_decide (k ∈ sh.*1) then o !! k else None.
Proof.
  induction sh as [|[k' t] sh IH].
  - reflexivity.
  - cbn [Zod.strip foldr fst snd fmap list_fmap]. fold (Zod.strip sh o).
    destruct (decide (k' = k)) as [->|Hne].
    + rewrite bool_decide_eq_true_2 by (apply elem_of_cons; by left).
      destruct (o !! k) as [v|] eqn:Hk.
      * by rewrite lookup_insert_eq.
      * rewrite IH. by case_bool_decide.
    + assert (bool_decide (k ∈ k' :: sh.*1) = bool_decide (k ∈ sh.*1)) as ->.
      { apply bool_decide_ext. rewrite elem_of_cons. intuition congruence. }
      destruct (o !! k') as [v|]; [|done].
      by rewrite lookup_insert_ne.
Qed.

End SchemaLemmas.

Lemma formSchema_erased :
  erase_shape AddStockModal.formSchema = erase_shape insertStockSchema.
Proof. reflexivity. Qed.

Lemma form_server_success (payload : option JS.value) :
  Zod.success (Zod.safeParse AddStockModal.formSchema payload)
  = Zod.success (Zod.safeParse insertStockSchema payload).
Proof.
  rewrite <- (success_erase AddStockModal.formSchema), formSchema_erased.
  apply success_erase.
Qed.

(** C1.  The form schema of the client and the schema the server applies
    to the body of [POST /api/stocks] agree on every payload: it is
    accepted by both or rejected by both. *)
Theorem client_server_validators_agree (payload : option JS.value) :
  Zod.success (Zod.safeParse AddStockModal.formSchema payload)
  = Zod.success (Zod.safeParse insertStockSchema payload).
Proof. apply form_server_success. Qed.

(** ** The server's schema and the rules of the specification *)

Section ServerSchema.

Implicit Types (o : object) (p : list string) (v : option JS.value).

Lemma string_min_ok p v :
  Zod.parse_type (Zod.z_string |> Zod.min 1 None) p v = []
  ↔ nonempty_string v = true.
Proof.
  destruct v as [[| | | s | |]|]; try (split; discriminate).
  schema_cbn. rewrite Qle_bool_inject_Z.
  destruct (Z.leb_spec 1 (Z.of_nat (String.length s)));
    destruct (Nat.leb_spec 1 (String.length s)); try lia; split; done.
Qed.

Lemma symbol_schema_ok p v :
  Zod.parse_type (Zod.z_string |> Zod.min 1 None |> Zod.max 5 None) p v = []
  ↔ symbol_ok v = true.
Proof.
  destruct v as [[| | | s | |]|]; try (split; discriminate).
  schema_cbn. rewrite !Qle_bool_inject_Z.
  destruct (Z.leb_spec 1 (Z.of_nat (String.length s)));
    destruct (Z.leb_spec (Z.of_nat (String.length s)) 5);
    destruct (Nat.leb_spec 1 (String.length s));
    destruct (Nat.leb_spec (String.length s) 5); try lia; split; done.
Qed.

Lemma volume_schema_ok p v :
  Zod.parse_type (Zod.z_number |> Zod.min 0 None) p v = []
  ↔ volume_ok v = true.
Proof.
  destruct v as [[| | [|q| |] | | |]|]; try (split; discriminate);
    [|by split].
  schema_cbn. change (inject_Z 0) with 0%Q.
  destruct (Qle_bool 0 q); split; done.
Qed.

(** The server's schema accepts exactly the valid creation payloads. *)
Lemma insertStockSchema_issues o :
  Zod.object_issues insertStockSchema o = [] ↔ valid_creation_payload o = true.
Proof.
  unfold Zod.object_issues, insertStockSchema, valid_creation_payload,
    string_fields.
  cbn [flat_map forallb fst snd].
  rewrite !app_nil, !andb_true_iff.
  rewrite symbol_schema_ok, !string_min_ok, volume_schema_ok.
  intuition.
Qed.


Lemma insertStockSchema_keys :
  insertStockSchema.*1 = stock_fields.
Proof. reflexivity. Qed.

Lemma insertStockSchema_verdict o :
  Zod.success (Zod.safeParse insertStockSchema (Some (JS.Obj o)))
  = valid_creation_payload o.
Proof.
  unfold Zod.safeParse.
  destruct (valid_creation_payload o) eqn:Hv.
  - apply insertStockSchema_issues in Hv. by rewrite Hv.
  - destruct (Zod.object_issues insertStockSchema o) eqn:Hi; [|done].
    apply insertStockSchema_issues in Hi. congruence.
Qed.

(** The form schema accepts exactly the valid creation payloads too, and
    hands on the seven fields. *)
Lemma formSchema_verdict o :
  Zod.success (Zod.safeParse AddStockModal.formSchema (Some (JS.Obj o)))
  = valid_creation_payload o.
Proof. by rewrite form_server_success, insertStockSchema_verdict. Qed.

Lemma formSchema_accepts o :
  valid_creation_payload o = true →
  Zod.safeParse AddStockModal.formSchema (Some (JS.Obj o))
  = Zod.Success (Zod.strip insertStockSchema o).
Proof.
  intros Hv. pose proof (formSchema_verdict o) as Hs. rewrite Hv in Hs.
  unfold Zod.safeParse in *.
  destruct (Zod.object_issues AddStockModal.formSchema o); [|done].
  reflexivity.
Qed.

Lemma formSchema_rejects o :
  valid_creation_payload o = false →
  ∃ issues,
    Zod.safeParse AddStockModal.formSchema (Some (JS.Obj o))
    = Zod.Failure issues.
Proof.
  intros Hv. pose proof (formSchema_verdict o) as Hs. rewrite Hv in Hs.
  destruct (Zod.safeParse _ _) as [|issues]; [done|]. by exists issues.
Qed.

End ServerSchema.

(** ** Route handlers *)



(** C3.  For every request body the handler of [POST /api/stocks] gives
    exactly one of: 400 with a message and the list of field errors when
    validation rejects the body, and then the store is untouched; 201 with
    the created record when validation and persistence succeed; 500 with a
    generic message when persistence throws. *)
Theorem post_stocks_outcomes {Store} `{IStorage Store}
    (body : option JS.value) (st : Store) :
  let resp := fst (post_stocks body st) in
  let st' := snd (post_stocks body st) in
  (∃ errors,
      Zod.safeParse insertStockSchema body = Zod.Failure errors
      ∧ resp = {| status := 400;
                  body_of := Invalid "Invalid stock data" errors |}
      ∧ st' = st)
  ∨ (∃ data stock,
      Zod.safeParse insertStockSchema body = Zod.Success data
      ∧ createStock data st = (Return stock, st')
      ∧ resp = {| status := 201; body_of := Json (JS.Obj stock) |})
  ∨ (∃ data error,
      Zod.safeParse insertStockSchema body = Zod.Success data
      ∧ createStock data st = (Throw error, st')
      ∧ resp = {| status := 500;
                  body_of := Message "Failed to create stock" |}).
Proof.
  unfold post_stocks, try_catch.
  destruct (Zod.safeParse insertStockSchema body) as [data|errors].
  - unfold bind. destruct (createStock data st) as [[stock|error] s] eqn:Hc.
    + right; left. by exists data, stock.
    + right; right. by exists data, error.
  - left. by exists errors.
Qed.

(** C7.  When the user has no transaction, [GET /api/transactions/{userId}]
    answers 200 with an empty array, not 404. *)
Theorem no_transactions_is_200_empty {Store} `{IStorage Store}
    (userId : string) (st st' : Store) :
  getTransactions (JS.parseInt userId) st = (Return [], st') →
  get_transactions userId st
  = ({| status := 200; body_of := Json (JS.Arr []) |}, st')
  ∧ status (fst (get_transactions userId st)) ≠ 404%nat.
Proof.
  intros Hg. unfold get_transactions, try_catch, bind.
  rewrite Hg. split; [reflexivity|]. simpl. lia.
Qed.

Lemma no_transactions_is_200_empty_witness :
  getTransactions (JS.parseInt "1") other_users_store
  = (Return [], other_users_store)
  ∧ get_transactions "1" other_users_store
    = ({| status := 200; body_of := Json (JS.Arr []) |}, other_users_store)
  ∧ status (fst (get_transactions "1" other_users_store)) ≠ 404%nat.
Proof.
  split; [vm_compute; reflexivity|].
  apply (no_transactions_is_200_empty "1" other_users_store other_users_store).
  vm_compute; reflexivity.
Defined.

(** A user id that is not a number reaches the storage as [NaN], which
    equals no stored id. *)
Example get_transactions_not_a_number :
  get_transactions "abc" other_users_store
  = ({| status := 200; body_of := Json (JS.Arr []) |}, other_users_store).
Proof. vm_compute. reflexivity. Qed.

Lemma threw_is_500 {Store} `{IStorage Store} (r : Req) (st : Store) e :
  Threw r st e →
  fst (registerRoutes r st)
  = {| status := 500; body_of := Message (generic_message r) |}.
Proof.
  destruct r as [u| |u|b]; simpl;
    unfold get_portfolio, get_stocks, get_transactions, post_stocks,
      try_catch, bind.
  - intros Ht. destruct (getPortfolio _ st) as [[?|?] ?]; simplify_eq/=; done.
  - intros Ht. destruct (getAllStocks st) as [[?|?] ?]; simplify_eq/=; done.
  - intros Ht. destruct (getTransactions _ st) as [[?|?] ?]; simplify_eq/=; done.
  - intros (data & -> & Ht).
    destruct (createStock data st) as [[?|?] ?]; simplify_eq/=; done.
Qed.

(** C8.  Whatever two errors are thrown while a route is handled, the two
    answers are the same: 500 with the fixed message of the route.  And an
    answer that reports a failure carries either one of the fixed messages
    or, on the 400 path only, the field errors of the validation. *)
Theorem error_answers_are_generic
    {Store1} (storage1 : IStorage Store1) {Store2} (storage2 : IStorage Store2)
    (r : Req) (st1 : Store1) (st2 : Store2) :
  (∀ e1 e2,
      Threw (H:=storage1) r st1 e1 → Threw (H:=storage2) r st2 e2 →
      fst (registerRoutes (storage:=storage1) r st1)
      = {| status := 500; body_of := Message (generic_message r) |}
      ∧ fst (registerRoutes (storage:=storage2) r st2)
        = fst (registerRoutes (storage:=storage1) r st1))
  ∧ (let resp := fst (registerRoutes (storage:=storage1) r st1) in
     (400 ≤ status resp)%nat →
     (∃ m, body_of resp = Message m ∧ m ∈ generic_messages)
     ∨ (∃ b errors,
          r = POST_stocks b
          ∧ Zod.safeParse insertStockSchema b = Zod.Failure errors
          ∧ resp = {| status := 400;
                      body_of := Invalid "Invalid stock data" errors |})).
Proof.
  split.
  - intros e1 e2 H1 H2.
    rewrite (threw_is_500 (H:=storage1) r st1 e1 H1).
    by rewrite (threw_is_500 (H:=storage2) r st2 e2 H2).
  - destruct r as [u| |u|b]; simpl;
      unfold get_portfolio, get_stocks, get_transactions, post_stocks,
        try_catch, bind.
    + destruct (getPortfolio _ st1) as [[[p|]|?] ?]; simpl; intros Hs;
        try lia; left; eexists; (split; [reflexivity|]);
        in_literal.
    + destruct (getAllStocks st1) as [[?|?] ?]; simpl; intros Hs;
        try lia; left; eexists; (split; [reflexivity|]);
        in_literal.
    + destruct (getTransactions _ st1) as [[?|?] ?]; simpl; intros Hs;
        try lia; left; eexists; (split; [reflexivity|]);
        in_literal.
    + destruct (Zod.safeParse insertStockSchema b) as [data|errors] eqn:Hp.
      * destruct (createStock data st1) as [[?|?] ?]; simpl; intros Hs;
          try lia; left; eexists; (split; [reflexivity|]);
          in_literal.
      * simpl. intros _. right. by exists b, errors.
Qed.

Lemma error_answers_are_generic_witness :
  Threw (H:=FaultyStorage (JS.Str "ECONNRESET")) GET_stocks tt (JS.Str "ECONNRESET")
  ∧ Threw (H:=FaultyStorage (JS.Num (JS.of_Z 42))) GET_stocks tt (JS.Num (JS.of_Z 42))
  ∧ fst (registerRoutes (storage:=FaultyStorage (JS.Num (JS.of_Z 42))) GET_stocks tt)
    = fst (registerRoutes (storage:=FaultyStorage (JS.Str "ECONNRESET")) GET_stocks tt).
Proof.
  split; [reflexivity|]. split; [reflexivity|].
  destruct (error_answers_are_generic
              (FaultyStorage (JS.Str "ECONNRESET"))
              (FaultyStorage (JS.Num (JS.of_Z 42))) GET_stocks tt tt)
    as [Hthrown _].
  apply (Hthrown (JS.Str "ECONNRESET") (JS.Num (JS.of_Z 42))); reflexivity.
Defined.

(** ** The submission flow of the client *)

(** C5.  When the request of a submission gets a 2xx answer, the client
    invalidates the cached stock-list query, resets the form to its
    defaults, closes the dialog and shows a positive notification. *)
Theorem success_effects (st : ModalState) (code : nat) :
  isPending st = true →
  (200 ≤ code ≤ 299)%nat →
  let st' := step AddStockModal.component (Settled (Responded code)) st in
  (∀ k inv, ["/api/stocks"] `prefix_of` k →
            queries st !! k = Some inv → queries st' !! k = Some true)
  ∧ values st' = AddStockModal.defaultValues
  ∧ errors st' = []
  ∧ open st' = false
  ∧ toasts st'
    = (toasts st
       ++ [{| title := "Success";
              description := "Stock added to watchlist successfully!";
              variant := None |}])%list.
Proof.
  intros Hp [Hlo Hhi]. cbn [step AddStockModal.component mutation].
  rewrite Hp. unfold settle. cbn [apiRequest_ok].
  apply Nat.leb_le in Hlo, Hhi. rewrite Hlo, Hhi. cbn [andb].
  repeat split.
  intros k inv Hk Hq. cbn.
  rewrite map_lookup_imap, Hq. cbn.
  by rewrite bool_decide_eq_true_2, orb_true_r.
Qed.

(** C4.  When the request of a submission fails, by a non-2xx answer or a
    network error, the client shows a negative notification, leaves the
    form as it is, and issues no further request. *)
Theorem failure_effects (st : ModalState) (o : FetchOutcome) :
  isPending st = true →
  (o = NetworkError
   ∨ ∃ code, o = Responded code ∧ ¬ (200 ≤ code ≤ 299)%nat) →
  let st' := step AddStockModal.component (Settled o) st in
  toasts st'
  = (toasts st
     ++ [{| title := "Error";
            description :=
              "Failed to add stock to watchlist. Please try again.";
            variant := Some "destructive" |}])%list
  ∧ values st' = values st
  ∧ errors st' = errors st
  ∧ open st' = open st
  ∧ queries st' = queries st
  ∧ sent st' = sent st
  ∧ isPending st' = false.
Proof.
  intros Hp Ho. cbn [step AddStockModal.component mutation].
  rewrite Hp. unfold settle.
  assert (apiRequest_ok o = false) as ->; [|by repeat split].
  destruct Ho as [->|(code & -> & Hc)]; [reflexivity|].
  cbn [apiRequest_ok]. apply andb_false_iff.
  destruct (Nat.leb_spec 200 code); [|by left].
  destruct (Nat.leb_spec code 299); [lia|by right].
Qed.

Lemma success_effects_witness :
  isPending in_flight = true
  ∧ (200 ≤ 201 ≤ 299)%nat
  ∧ let st' := step AddStockModal.component (Settled (Responded 201)) in_flight in
    (∀ k inv, ["/api/stocks"] `prefix_of` k →
              queries in_flight !! k = Some inv → queries st' !! k = Some true)
    ∧ values st' = AddStockModal.defaultValues
    ∧ errors st' = []
    ∧ open st' = false
    ∧ toasts st'
      = (toasts in_flight
         ++ [{| title := "Success";
                description := "Stock added to watchlist successfully!";
                variant := None |}])%list.
Proof.
  split; [vm_compute; reflexivity|]. split; [lia|].
  apply (success_effects in_flight 201); [vm_compute; reflexivity|lia].
Defined.

Lemma failure_effects_witness :
  isPending in_flight = true
  ∧ values (step AddStockModal.component (Settled (Responded 400)) in_flight)
    = values in_flight
  ∧ sent (step AddStockModal.component (Settled NetworkError) in_flight)
    = sent in_flight.
Proof.
  split; [vm_compute; reflexivity|]. split.
  - apply (failure_effects in_flight (Responded 400));
      [vm_compute; reflexivity|].
    right. exists 400%nat. split; [reflexivity|lia].
  - apply (failure_effects in_flight NetworkError);
      [vm_compute; reflexivity|by left].
Defined.

Example submission_succeeds :
  step AddStockModal.component (Settled (Responded 201)) in_flight
  = {| open := false; values := AddStockModal.defaultValues; errors := [];
       toasts := [{| title := "Success";
                     description := "Stock added to watchlist successfully!";
                     variant := None |}];
       queries := {[ ["/api/stocks"] := true ]};
       isPending := false;
       sent := [{| url := "/api/stocks"; method := "POST";
                   headers := [("Content-Type", "application/json")];
                   body := aapl |}] |}.
Proof. vm_compute. reflexivity. Qed.

Example submission_fails :
  step AddStockModal.component (Settled (Responded 500)) in_flight
  = {| open := true; values := aapl; errors := [];
       toasts := [{| title := "Error";
                     description :=
                       "Failed to add stock to watchlist. Please try again.";
                     variant := Some "destructive" |}];
       queries := {[ ["/api/stocks"] := false ]};
       isPending := false;
       sent := [{| url := "/api/stocks"; method := "POST";
                   headers := [("Content-Type", "application/json")];
                   body := aapl |}] |}.
Proof. vm_compute. reflexivity. Qed.

Lemma empty_symbol_invalid (o : object) :
  o !! "symbol" = Some (JS.Str "") → valid_creation_payload o = false.
Proof. intros Hs. unfold valid_creation_payload. by rewrite Hs. Qed.

Lemma empty_symbol_issue (o : object) :
  o !! "symbol" = Some (JS.Str "") →
  ∃ rest,
    Zod.object_issues insertStockSchema o
    = {| Zod.code := Zod.too_small; Zod.path := ["symbol"];
         Zod.message := None |} :: rest.
Proof.
  intros Hs. unfold Zod.object_issues, insertStockSchema.
  cbn [flat_map fst snd]. rewrite Hs. eexists. reflexivity.
Qed.

(** C6.  A form whose symbol is the empty string is stopped by the
    client's validation, so that no request is made; and a body with an
    empty symbol posted to [/api/stocks] is answered 400 with an error that
    names the symbol field. *)
Theorem empty_symbol_blocked_and_rejected {Store} `{IStorage Store}
    (form : ModalState) (o : object) (st : Store) :
  values form !! "symbol" = Some (JS.Str "") →
  o !! "symbol" = Some (JS.Str "") →
  (sent (step AddStockModal.component Submit form) = sent form
   ∧ isPending (step AddStockModal.component Submit form) = isPending form)
  ∧ ∃ errors,
      post_stocks (Some (JS.Obj o)) st
      = ({| status := 400; body_of := Invalid "Invalid stock data" errors |},
         st)
      ∧ ∃ issue, issue ∈ errors ∧ Zod.path issue = ["symbol"].
Proof.
  intros Hform Ho. split.
  - cbn [step AddStockModal.component schema submit].
    destruct (isPending form) eqn:Hp; [by rewrite Hp|].
    unfold handleSubmit.
    destruct (formSchema_rejects (values form)) as [issues ->];
      [by apply empty_symbol_invalid|].
    by rewrite <- Hp.
  - destruct (empty_symbol_issue o Ho) as [rest Hi].
    eexists. split.
    + unfold post_stocks, try_catch, Zod.safeParse. rewrite Hi. reflexivity.
    + eexists. split; [apply list_elem_of_here|reflexivity].
Qed.

Lemma empty_symbol_blocked_and_rejected_witness :
  let form := field_onChange "symbol" (JS.Str "") filled_form in
  let o : object := <["symbol" := JS.Str ""]> aapl in
  values form !! "symbol" = Some (JS.Str "")
  ∧ o !! "symbol" = Some (JS.Str "")
  ∧ sent (step AddStockModal.component Submit form) = sent form
  ∧ status (fst (post_stocks (Some (JS.Obj o)) fresh_store)) = 400%nat.
Proof.
  intros form o.
  split; [vm_compute; reflexivity|]. split; [vm_compute; reflexivity|].
  destruct (empty_symbol_blocked_and_rejected (Store:=MemStore)
              form o fresh_store)
    as [[Hsent _] (errors & Hpost & _)];
    [vm_compute; reflexivity | vm_compute; reflexivity |].
  split; [exact Hsent|]. by rewrite Hpost.
Defined.

(** ** The two copies of the component *)

(** C9.  The two copies of the component in the client's source file
    behave alike: the same validation schema, the same default values, the
    same effects on success and on failure, and so the same state after any
    sequence of events. *)
Theorem copies_equivalent :
  AddStockModal.formSchema = AddStockModal2.formSchema
  ∧ AddStockModal.defaultValues = AddStockModal2.defaultValues
  ∧ onSuccess AddStockModal.createStockMutation
    = onSuccess AddStockModal2.createStockMutation
  ∧ onError AddStockModal.createStockMutation
    = onError AddStockModal2.createStockMutation
  ∧ ∀ es st,
      run AddStockModal.component es st = run AddStockModal2.component es st.
Proof. repeat split. Qed.

(** ** Numbers *)

Section Numbers.

Local Open Scope Z_scope.

Lemma round_magnitude_pos (a v : Z) :
  0 < a → JS.round_magnitude a = Some v → 0 < v.
Proof.
  intros Ha. unfold JS.round_magnitude.
  destruct (Z.ltb_spec a (2 ^ 53)) as [|Hbig]; [by intros [= <-]|].
  assert (53 ≤ Z.log2 a) as Hlog.
  { rewrite <- (Z.log2_pow2 53) by lia. by apply Z.log2_le_mono. }
  set (e := Z.log2 a - 52).
  assert (0 < 2 ^ e) as Hpow by (apply Z.pow_pos_nonneg; lia).
  assert (0 < a / 2 ^ e) as Hm.
  { apply Z.div_str_pos. split; [done|].
    transitivity (2 ^ Z.log2 a); [|by apply Z.log2_spec].
    apply Z.pow_le_mono_r; lia. }
  set (m := a / 2 ^ e) in *.
  set (m' := if a mod 2 ^ e <? 2 ^ (e - 1) then m else _).
  assert (0 < m') as Hm'.
  { unfold m'. repeat case_match; lia. }
  destruct (_ <? 2 ^ 1024); [|done]. intros [= <-].
  by apply Z.mul_pos_pos.
Qed.

(** A number made from an integer is that integer rounded, or an infinity
    of its sign. *)
Lemma of_Z_sign (z : Z) :
  match z with
  | 0 => JS.of_Z z = JS.Fin (inject_Z 0)
  | Z.pos _ => JS.of_Z z = JS.PosInf
               ∨ ∃ v, 0 < v ∧ JS.of_Z z = JS.Fin (inject_Z v)
  | Z.neg _ => JS.of_Z z = JS.NegInf
               ∨ ∃ v, v < 0 ∧ JS.of_Z z = JS.Fin (inject_Z v)
  end.
Proof.
  destruct z as [|p|p]; [reflexivity|..]; unfold JS.of_Z.
  - destruct (JS.round_magnitude (Z.pos p)) as [v|] eqn:Hr; [|by left].
    right. exists v. split; [|done].
    by apply (round_magnitude_pos (Z.pos p)).
  - destruct (JS.round_magnitude (- Z.neg p)) as [v|] eqn:Hr; [|by left].
    right. exists (- v). split; [|done].
    apply (round_magnitude_pos (- Z.neg p)) in Hr; lia.
Qed.

Lemma of_Z_whole (z : Z) : whole_number (JS.of_Z z).
Proof.
  pose proof (of_Z_sign z) as Hz. unfold whole_number.
  destruct z; [right; right; by exists 0|..];
    destruct Hz as [->|(v & _ & ->)]; eauto.
Qed.

(** Below [2^53] the integer is kept as it is. *)
Lemma of_Z_exact (z : Z) :
  Z.abs z < 2 ^ 53 → JS.of_Z z = JS.Fin (inject_Z z).
Proof.
  intros Hz. destruct z as [|p|p]; [reflexivity|..];
    unfold JS.of_Z, JS.round_magnitude.
  - destruct (Z.ltb_spec (Z.pos p) (2 ^ 53)); [done|lia].
  - destruct (Z.ltb_spec (- Z.neg p) (2 ^ 53)); [|lia].
    by rewrite Z.opp_involutive.
Qed.

Lemma truthy_Fin_inject (v : Z) :
  JS.truthy (JS.Fin (inject_Z v)) = negb (v =? 0)%Z.
Proof. by destruct v. Qed.

Lemma truthy_of_Z (z : Z) : JS.truthy (JS.of_Z z) = negb (z =? 0)%Z.
Proof.
  pose proof (of_Z_sign z) as Hz.
  destruct z as [|p|p]; [by rewrite Hz|..];
    destruct Hz as [->|(v & Hv & ->)]; try reflexivity;
    rewrite truthy_Fin_inject; cbn; apply negb_true_iff, Z.eqb_neq; lia.
Qed.

Lemma or_zero_of_Z (z : Z) :
  JS.or (JS.of_Z z) (JS.of_Z 0) = JS.of_Z z.
Proof.
  unfold JS.or. rewrite truthy_of_Z.
  destruct (Z.eqb_spec z 0) as [->|]; reflexivity.
Qed.

End Numbers.

(** [of_Z] rounds as the Standard Library's specification of IEEE 754
    does, at the first integers that are not binary64 values, at a tie
    upwards and a tie downwards, and at both sides of the overflow. *)
Example of_Z_agrees_with_binary_normalize :
  Forall (fun z => JS.strict_eq
                     (JS.of_Z z)
                     (JS.of_spec_float
                        (SpecFloat.binary_normalize 53 1024 z 0 false))
                   = true)
    [0; 1; -1; 45200000; 2 ^ 53 - 1; 2 ^ 53; 2 ^ 53 + 1; 2 ^ 53 + 2;
     2 ^ 53 + 3; - (2 ^ 53 + 1); 2 ^ 54 + 2; 2 ^ 54 + 6; 10 ^ 22; 10 ^ 23;
     10 ^ 308; 2 ^ 1024 - 2 ^ 971; 2 ^ 1024 - 2 ^ 970 - 1;
     2 ^ 1024 - 2 ^ 970; 2 ^ 1024; 10 ^ 309; - 10 ^ 309].
Proof. repeat (constructor; [vm_compute; reflexivity|]). constructor. Qed.

(** ** The volume field *)

Lemma parseInt_integer (raw : string) :
  JS.parseInt raw = JS.NaN ∨ ∃ z, JS.parseInt raw = JS.of_Z z.
Proof.
  unfold JS.parseInt.
  destruct (JS.strip_sign _) as [sign s1].
  destruct (JS.strip_prefix _) as [radix s2].
  destruct (JS.digits radix s2); [by left|right; eauto].
Qed.

Example parseInt_rounds_above_2_53 :
  JS.parseInt "9007199254740993" = JS.Fin (inject_Z 9007199254740992).
Proof. vm_compute. reflexivity. Qed.

Example parseInt_overflows :
  JS.parseInt overflow_text = JS.PosInf.
Proof. vm_compute. reflexivity. Qed.

Example volume_input_number :
  values (step AddStockModal.component (VolumeInput "45200000") filled_form)
    !! "volume" = Some (JS.Num (JS.of_Z 45200000)).
Proof. vm_compute. reflexivity. Qed.

Example volume_input_empty :
  values (step AddStockModal.component (VolumeInput "") filled_form)
    !! "volume" = Some (JS.Num (JS.of_Z 0)).
Proof. vm_compute. reflexivity. Qed.

Example volume_input_negative :
  values (step AddStockModal.component (VolumeInput "-5") filled_form)
    !! "volume" = Some (JS.Num (JS.of_Z (-5))).
Proof. vm_compute. reflexivity. Qed.

(** * Further properties of the routes *)

(** X1.  A route answers 500 exactly when the storage operation it calls
    throws. *)
Theorem status_500_iff_threw {Store} `{IStorage Store} (r : Req) (st : Store) :
  status (fst (registerRoutes r st)) = 500%nat ↔ ∃ e, Threw r st e.
Proof.
  split.
  - destruct r as [u| |u|b]; cbn [registerRoutes Threw]; run_route.
    + destruct (getPortfolio _ st) as [[[p|]|e] s]; cbn; try discriminate.
      intros _. by exists e.
    + destruct (getAllStocks st) as [[l|e] s]; cbn; try discriminate.
      intros _. by exists e.
    + destruct (getTransactions _ st) as [[l|e] s]; cbn; try discriminate.
      intros _. by exists e.
    + destruct (Zod.safeParse insertStockSchema b) as [data|errors];
        [|cbn; discriminate].
      destruct (createStock data st) as [[stock|e] s] eqn:Hc; cbn;
        try discriminate.
      intros _. exists e, data. by rewrite Hc.
  - intros [e He]. by rewrite (threw_is_500 r st e He).
Qed.

(** X2.  404 is the answer of the portfolio route alone, exactly when the
    storage returns no portfolio; 400 is the answer of the creation route
    alone, exactly when validation rejects the body. *)
Theorem client_error_statuses {Store} `{IStorage Store} (r : Req) (st : Store) :
  (status (fst (registerRoutes r st)) = 404%nat
   ↔ ∃ u, r = GET_portfolio u
          ∧ fst (getPortfolio (JS.parseInt u) st) = Return None)
  ∧ (status (fst (registerRoutes r st)) = 400%nat
     ↔ ∃ b errors, r = POST_stocks b
          ∧ Zod.safeParse insertStockSchema b = Zod.Failure errors).
Proof.
  split; split.
  - destruct r as [u| |u|b]; cbn [registerRoutes]; run_route.
    + destruct (getPortfolio _ st) as [[[p|]|e] s] eqn:Hg; cbn;
        try discriminate.
      intros _. exists u. by rewrite Hg.
    + destruct (getAllStocks st) as [[l|e] s]; cbn; discriminate.
    + destruct (getTransactions _ st) as [[l|e] s]; cbn; discriminate.
    + destruct (Zod.safeParse insertStockSchema b) as [data|errors];
        [|cbn; discriminate].
      destruct (createStock data st) as [[stock|e] s]; cbn; discriminate.
  - intros (u & -> & Hg). cbn [registerRoutes]. run_route.
    destruct (getPortfolio _ st) as [[[p|]|e] s]; cbn in *; by simplify_eq.
  - destruct r as [u| |u|b]; cbn [registerRoutes]; run_route.
    + destruct (getPortfolio _ st) as [[[p|]|e] s]; cbn; discriminate.
    + destruct (getAllStocks st) as [[l|e] s]; cbn; discriminate.
    + destruct (getTransactions _ st) as [[l|e] s]; cbn; discriminate.
    + destruct (Zod.safeParse insertStockSchema b) as [data|errors] eqn:Hp.
      * destruct (createStock data st) as [[stock|e] s]; cbn; discriminate.
      * intros _. by exists b, errors.
  - intros (b & errors & -> & Hp). cbn [registerRoutes]. run_route.
    by rewrite Hp.
Qed.

(** X3.  The statuses a route can answer with: 200, 404 or 500 for a
    portfolio; 200 or 500 for the lists of stocks and of transactions;
    201, 400 or 500 for a creation. *)
Theorem route_statuses {Store} `{IStorage Store} (r : Req) (st : Store) :
  status (fst (registerRoutes r st))
  ∈ match r with
    | GET_portfolio _ => [200; 404; 500]
    | GET_stocks | GET_transactions _ => [200; 500]
    | POST_stocks _ => [201; 400; 500]
    end%nat.
Proof.
  destruct r as [u| |u|b]; cbn [registerRoutes]; run_route.
  - destruct (getPortfolio _ st) as [[[p|]|e] s]; cbn; in_literal.
  - destruct (getAllStocks st) as [[l|e] s]; cbn; in_literal.
  - destruct (getTransactions _ st) as [[l|e] s]; cbn; in_literal.
  - destruct (Zod.safeParse insertStockSchema b) as [data|errors];
      [|cbn; in_literal].
    destruct (createStock data st) as [[stock|e] s]; cbn; in_literal.
Qed.

(** X4.  A body that is not an object (no body at all, null, a string, a
    number, an array) is answered 400 with one issue at the empty path, and
    the storage is not called. *)
Theorem non_object_body_rejected {Store} `{IStorage Store}
    (body : option JS.value) (st : Store) :
  (∀ o, body ≠ Some (JS.Obj o)) →
  post_stocks body st
  = ({| status := 400;
        body_of := Invalid "Invalid stock data"
                     [{| Zod.code := Zod.invalid_type; Zod.path := [];
                         Zod.message := None |}] |}, st).
Proof.
  intros Hb. run_route.
  destruct body as [[| | | | |o]|]; try reflexivity.
  by destruct (Hb o).
Qed.

Lemma non_object_body_rejected_witness :
  (∀ o, Some (JS.Arr [JS.Obj aapl]) ≠ Some (JS.Obj o))
  ∧ status (fst (post_stocks (Some (JS.Arr [JS.Obj aapl])) fresh_store))
    = 400%nat.
Proof.
  split; [discriminate|].
  rewrite (non_object_body_rejected (Some (JS.Arr [JS.Obj aapl])) fresh_store);
    [reflexivity|discriminate].
Defined.

(** X5.  When a creation is answered 201, the storage was handed the
    parsed data, not the body: only keys of the schema, each with the value
    the body has for it, and a body that raised no issue. *)
Theorem created_from_parsed_data {Store} `{IStorage Store}
    (body : option JS.value) (st : Store) :
  status (fst (post_stocks body st)) = 201%nat →
  ∃ o data stock,
    body = Some (JS.Obj o)
    ∧ Zod.object_issues insertStockSchema o = []
    ∧ (∀ k, data !! k
            = if bool_decide (k ∈ insertStockSchema.*1) then o !! k else None)
    ∧ createStock data st = (Return stock, snd (post_stocks body st))
    ∧ body_of (fst (post_stocks body st)) = Json (JS.Obj stock).
Proof.
  run_route. unfold Zod.safeParse.
  destruct body as [[| | | | |o]|]; try (cbn; discriminate).
  destruct (Zod.object_issues insertStockSchema o) eqn:Hi;
    [|cbn; discriminate].
  destruct (createStock _ st) as [[stock|e] s] eqn:Hc; cbn; try discriminate.
  intros _. exists o, (Zod.strip insertStockSchema o), stock.
  repeat split; try done. intros k. apply lookup_strip.
Qed.

Lemma created_from_parsed_data_witness :
  status (fst (post_stocks
                 (Some (JS.Obj (<["admin" := JS.Bool true]> aapl)))
                 fresh_store)) = 201%nat
  ∧ ∃ stock,
      body_of (fst (post_stocks
                      (Some (JS.Obj (<["admin" := JS.Bool true]> aapl)))
                      fresh_store)) = Json (JS.Obj stock).
Proof.
  split; [vm_compute; reflexivity|].
  destruct (created_from_parsed_data
              (Some (JS.Obj (<["admin" := JS.Bool true]> aapl))) fresh_store)
    as (o & data & stock & _ & _ & _ & _ & Hbody);
    [vm_compute; reflexivity|].
  by exists stock.
Defined.

(** * Further properties of the form *)

Section FormLemmas.

Implicit Types (sh : Zod.ZodObject) (o : object) (st : ModalState).

Lemma formSchema_shape : AddStockModal.formSchema = form_overrides.
Proof. reflexivity. Qed.

Lemma issue_in_object_issues sh o k t i :
  (k, t) ∈ sh →
  i ∈ Zod.parse_type t [k] (o !! k) →
  i ∈ Zod.object_issues sh o.
Proof.
  unfold Zod.object_issues. intros Hin Hi.
  induction sh as [|kt sh IH]; [by apply elem_of_nil in Hin|].
  cbn [flat_map]. apply elem_of_app.
  apply elem_of_cons in Hin as [<-|Hin]; [by left|right; by apply IH].
Qed.

Lemma safeParse_issues sh o :
  Zod.object_issues sh o ≠ [] →
  Zod.safeParse sh (Some (JS.Obj o)) = Zod.Failure (Zod.object_issues sh o).
Proof. unfold Zod.safeParse. by destruct (Zod.object_issues sh o). Qed.

(** A form that raises an issue is not submitted: the issues become the
    errors of the form and no request is made. *)
Lemma submit_blocked st i :
  isPending st = false →
  i ∈ Zod.object_issues AddStockModal.formSchema (values st) →
  i ∈ errors (step AddStockModal.component Submit st)
  ∧ sent (step AddStockModal.component Submit st) = sent st
  ∧ isPending (step AddStockModal.component Submit st) = false.
Proof.
  intros Hp Hi. cbn [step AddStockModal.component schema submit].
  rewrite Hp. unfold handleSubmit.
  rewrite safeParse_issues; [by repeat split|].
  intros Hnil. rewrite Hnil in Hi. by apply elem_of_nil in Hi.
Qed.

End FormLemmas.

(** Reduce an issue of the form to an issue of the field [H] looks up. *)
Ltac issue_at H :=
  match type of H with
  | _ !! ?k = _ =>
      eapply (issue_in_object_issues _ _ k);
      [rewrite formSchema_shape; unfold form_overrides;
       repeat first [apply list_elem_of_here | apply list_elem_of_further]|]
  end.

(** X6.  A string field left empty stops the submission with the text the
    schema gives for that field, and no request is made. *)
Theorem empty_field_message (st : ModalState) (k msg : string) :
  isPending st = false →
  (k, msg) ∈ required_messages →
  values st !! k = Some (JS.Str "") →
  {| Zod.code := Zod.too_small; Zod.path := [k]; Zod.message := Some msg |}
    ∈ errors (step AddStockModal.component Submit st)
  ∧ sent (step AddStockModal.component Submit st) = sent st.
Proof.
  intros Hp Hk Hv.
  enough ({| Zod.code := Zod.too_small; Zod.path := [k];
             Zod.message := Some msg |}
          ∈ Zod.object_issues AddStockModal.formSchema (values st)) as Hi.
  { destruct (submit_blocked st _ Hp Hi) as (? & ? & _). by split. }
  unfold required_messages in Hk.
  repeat (apply elem_of_cons in Hk as [Hk|Hk];
          [simplify_eq; issue_at Hv; rewrite Hv; apply list_elem_of_here|]).
  by apply elem_of_nil in Hk.
Qed.

Lemma empty_field_message_witness :
  let st := field_onChange "price" (JS.Str "") filled_form in
  isPending st = false
  ∧ ("price", "Price is required") ∈ required_messages
  ∧ values st !! "price" = Some (JS.Str "")
  ∧ sent (step AddStockModal.component Submit st) = sent st.
Proof.
  intros st.
  split; [vm_compute; reflexivity|].
  split; [unfold required_messages; in_literal|].
  split; [vm_compute; reflexivity|].
  apply (empty_field_message st "price" "Price is required");
    [vm_compute; reflexivity | unfold required_messages; in_literal
    | vm_compute; reflexivity].
Defined.

(** X7.  A symbol of more than five characters stops the submission with
    the text of the length rule, and no request is made. *)
Theorem long_symbol_message (st : ModalState) (s : string) :
  isPending st = false →
  values st !! "symbol" = Some (JS.Str s) →
  (5 < String.length s)%nat →
  {| Zod.code := Zod.too_big; Zod.path := ["symbol"];
     Zod.message := Some "Symbol must be 5 characters or less" |}
    ∈ errors (step AddStockModal.component Submit st)
  ∧ sent (step AddStockModal.component Submit st) = sent st.
Proof.
  intros Hp Hv Hlen.
  enough ({| Zod.code := Zod.too_big; Zod.path := ["symbol"];
             Zod.message := Some "Symbol must be 5 characters or less" |}
          ∈ Zod.object_issues AddStockModal.formSchema (values st)) as Hi.
  { destruct (submit_blocked st _ Hp Hi) as (? & ? & _). by split. }
  issue_at Hv.
  rewrite Hv. schema_cbn. rewrite !Qle_bool_inject_Z.
  destruct (Z.leb_spec 1 (Z.of_nat (String.length s))); [|lia].
  destruct (Z.leb_spec (Z.of_nat (String.length s)) 5); [lia|].
  apply list_elem_of_here.
Qed.

Lemma long_symbol_message_witness :
  isPending long_symbol_form = false
  ∧ values long_symbol_form !! "symbol" = Some (JS.Str "GOOGLE")
  ∧ (5 < String.length "GOOGLE")%nat
  ∧ sent (step AddStockModal.component Submit long_symbol_form)
    = sent long_symbol_form.
Proof.
  split; [vm_compute; reflexivity|]. split; [vm_compute; reflexivity|].
  split; [vm_compute; lia|].
  apply (long_symbol_message long_symbol_form "GOOGLE");
    [vm_compute; reflexivity | vm_compute; reflexivity | vm_compute; lia].
Defined.

Lemma volume_input_values (raw : string) (st : ModalState) :
  step AddStockModal.component (VolumeInput raw) st
  = set_values
      (<["volume" := JS.Num (JS.or (JS.parseInt raw) (JS.of_Z 0))]> (values st))
      st.
Proof. reflexivity. Qed.

(** X8.  A volume text that parses to a negative integer is stored as the
    number of that integer and then stops the submission with the text of
    the volume rule; no request is made. *)
Theorem negative_volume_rejected (raw : string) (z : Z) (st : ModalState) :
  isPending st = false →
  JS.parseInt raw = JS.of_Z z →
  z < 0 →
  let st1 := step AddStockModal.component (VolumeInput raw) st in
  values st1 !! "volume" = Some (JS.Num (JS.of_Z z))
  ∧ {| Zod.code := Zod.too_small; Zod.path := ["volume"];
       Zod.message := Some "Volume must be positive" |}
      ∈ errors (step AddStockModal.component Submit st1)
  ∧ sent (step AddStockModal.component Submit st1) = sent st.
Proof.
  intros Hp Hraw Hz. cbn zeta. rewrite volume_input_values, Hraw, or_zero_of_Z.
  set (st1 := set_values _ st).
  assert (values st1 !! "volume" = Some (JS.Num (JS.of_Z z))) as Hv
    by apply lookup_insert_eq.
  split; [exact Hv|].
  enough ({| Zod.code := Zod.too_small; Zod.path := ["volume"];
             Zod.message := Some "Volume must be positive" |}
          ∈ Zod.object_issues AddStockModal.formSchema (values st1)) as Hi.
  { destruct (submit_blocked st1 _ Hp Hi) as (? & ? & _). by split. }
  issue_at Hv. rewrite Hv. schema_cbn.
  pose proof (of_Z_sign z) as Hsign.
  destruct z as [|p|p]; [lia..|].
  destruct Hsign as [->|(v & Hneg & ->)].
  - apply list_elem_of_here.
  - cbn [Zod.parse_type flat_map Zod.run_check app].
    rewrite Qle_bool_inject_Z.
    destruct (Z.leb_spec 0 v); [lia|]. apply list_elem_of_here.
Qed.

Lemma negative_volume_rejected_witness :
  isPending filled_form = false
  ∧ JS.parseInt "-5" = JS.of_Z (-5)
  ∧ -5 < 0
  ∧ sent (step AddStockModal.component Submit
            (step AddStockModal.component (VolumeInput "-5") filled_form))
    = sent filled_form.
Proof.
  split; [reflexivity|]. split; [reflexivity|]. split; [lia|].
  apply (negative_volume_rejected "-5" (-5) filled_form);
    [reflexivity | reflexivity | lia].
Defined.

(** ** Invariants of the dialog *)

Lemma stored_volume_whole (raw : string) : whole_number (stored_volume raw).
Proof.
  unfold stored_volume.
  destruct (parseInt_integer raw) as [->|[z ->]].
  - apply (of_Z_whole 0).
  - rewrite or_zero_of_Z. apply of_Z_whole.
Qed.

Lemma step_volume_whole (e : Event) (st : ModalState) :
  keeps_volume_input e = true →
  volume_is_whole st →
  volume_is_whole (step AddStockModal.component e st).
Proof.
  intros He (n & Hn & Hw). destruct e as [b|name v|raw| |o].
  - by exists n.
  - exists n. cbn in He |- *. apply negb_true_iff, bool_decide_eq_false in He.
    by rewrite lookup_insert_ne.
  - rewrite volume_input_values. unfold volume_is_whole. cbn [values set_values].
    exists (stored_volume raw). split; [apply lookup_insert_eq|].
    apply stored_volume_whole.
  - cbn [step AddStockModal.component schema submit].
    destruct (isPending st); [by exists n|]. unfold handleSubmit.
    destruct (Zod.safeParse _ _); by exists n.
  - cbn [step AddStockModal.component mutation].
    destruct (isPending st); [|by exists n]. unfold settle.
    destruct (apiRequest_ok o); [|by exists n].
    exists (JS.of_Z 0). split; [done|apply (of_Z_whole 0)].
Qed.

(** X9.  The volume of the form is never [NaN] and never a fraction: it
    is an integer, or an infinity when the digits typed are too many for
    binary64, whatever is typed and whatever happens to the requests, as
    long as the volume is written through its input. *)
Theorem volume_stays_whole (es : list Event) (st : ModalState) :
  forallb keeps_volume_input es = true →
  volume_is_whole st →
  volume_is_whole (run AddStockModal.component es st).
Proof.
  unfold run. revert st.
  induction es as [|e es IH]; intros st Hes Hst; [exact Hst|].
  cbn [forallb] in Hes. apply andb_true_iff in Hes as [He Hes].
  cbn [fold_left]. apply IH; [exact Hes|]. by apply step_volume_whole.
Qed.

Lemma volume_stays_whole_witness :
  volume_is_whole (initial AddStockModal.component)
  ∧ volume_is_whole
      (run AddStockModal.component
         [OpenChange true; VolumeInput "12.7"; VolumeInput overflow_text;
          FieldChange "symbol" (JS.Str "AAPL"); Submit]
         (initial AddStockModal.component)).
Proof.
  assert (volume_is_whole (initial AddStockModal.component)) as Hinit.
  { exists (JS.of_Z 0). split; [vm_compute; reflexivity|apply (of_Z_whole 0)]. }
  split; [exact Hinit|].
  apply volume_stays_whole; [vm_compute; reflexivity|exact Hinit].
Defined.

(** The overflowing text leaves an infinity in the form, which the schema
    accepts: the form is submitted. *)
Example overflow_volume_submitted :
  let st := run AddStockModal.component [VolumeInput overflow_text; Submit]
              filled_form in
  values st !! "volume" = Some (JS.Num JS.PosInf)
  ∧ errors st = []
  ∧ body <$> sent st = [<["volume" := JS.Num JS.PosInf]> aapl].
Proof. vm_compute. repeat split. Qed.

Lemma step_pending_user (e : Event) (st : ModalState) :
  user_event e = true →
  isPending st = true →
  isPending (step AddStockModal.component e st) = true
  ∧ sent (step AddStockModal.component e st) = sent st
  ∧ toasts (step AddStockModal.component e st) = toasts st.
Proof.
  intros He Hp. destruct e; try discriminate; cbn; rewrite ?Hp; done.
Qed.

(** X10.  While a request is pending, nothing the user does (typing,
    opening or closing the dialog, pressing submit) issues another request
    or ends the pending one. *)
Theorem pending_blocks_user_events (es : list Event) (st : ModalState) :
  forallb user_event es = true →
  isPending st = true →
  isPending (run AddStockModal.component es st) = true
  ∧ sent (run AddStockModal.component es st) = sent st
  ∧ toasts (run AddStockModal.component es st) = toasts st.
Proof.
  unfold run. revert st.
  induction es as [|e es IH]; intros st Hes Hp; [done|].
  cbn [forallb] in Hes. apply andb_true_iff in Hes as [He Hes].
  destruct (step_pending_user e st He Hp) as (Hp' & Hs & Ht).
  cbn [fold_left]. destruct (IH _ Hes Hp') as (? & ? & ?).
  repeat split; congruence.
Qed.

Lemma pending_blocks_user_events_witness :
  isPending in_flight = true
  ∧ sent (run AddStockModal.component
            [Submit; OpenChange false; VolumeInput "7"; Submit] in_flight)
    = sent in_flight.
Proof.
  split; [vm_compute; reflexivity|].
  apply (pending_blocks_user_events
           [Submit; OpenChange false; VolumeInput "7"; Submit] in_flight);
    vm_compute; reflexivity.
Defined.

Lemma lookup_strip_field (o : object) (k : string) :
  k ∈ stock_fields →
  Zod.strip insertStockSchema o !! k = o !! k.
Proof.
  intros Hk. rewrite lookup_strip, insertStockSchema_keys.
  by rewrite bool_decide_eq_true_2.
Qed.

Lemma strip_valid (o : object) :
  valid_creation_payload (Zod.strip insertStockSchema o)
  = valid_creation_payload o.
Proof.
  unfold valid_creation_payload, string_fields. cbn [forallb].
  by rewrite !lookup_strip_field by (unfold stock_fields; in_literal).
Qed.

(** A step either leaves the requests as they are or adds one well-formed
    request and becomes pending. *)
Lemma step_sent (e : Event) (st : ModalState) :
  sent (step AddStockModal.component e st) = sent st
  ∨ ∃ r, well_formed_request r
         ∧ isPending st = false
         ∧ isPending (step AddStockModal.component e st) = true
         ∧ toasts (step AddStockModal.component e st) = toasts st
         ∧ sent (step AddStockModal.component e st) = (sent st ++ [r])%list.
Proof.
  destruct e as [b|name v|raw| |o]; try (by left).
  - cbn [step AddStockModal.component schema submit].
    destruct (isPending st) eqn:Hp; [by left|]. unfold handleSubmit.
    destruct (valid_creation_payload (values st)) eqn:Hv.
    + rewrite (formSchema_accepts _ Hv). right.
      exists (mutationFn AddStockModal.createStockMutation
                (Zod.strip insertStockSchema (values st))).
      split; [|done].
      repeat split. cbn [body mutationFn AddStockModal.createStockMutation].
      by rewrite strip_valid.
    + destruct (formSchema_rejects _ Hv) as [issues ->]. by left.
  - left. cbn [step AddStockModal.component mutation].
    destruct (isPending st); [|done]. unfold settle.
    by destruct (apiRequest_ok o).
Qed.

(** X11.  Every request the dialog issues, after any sequence of events, is
    a POST to [/api/stocks] with the JSON content type whose data satisfy
    the rules of the form. *)
Theorem requests_well_formed (es : list Event) (st : ModalState) (r : Request) :
  r ∈ sent (run AddStockModal.component es st) →
  r ∈ sent st ∨ well_formed_request r.
Proof.
  unfold run. revert st.
  induction es as [|e es IH]; intros st Hr; [by left|].
  cbn [fold_left] in Hr. apply IH in Hr as [Hr|Hr]; [|by right].
  destruct (step_sent e st) as [Hs|(r' & Hw & _ & _ & _ & Hs)];
    rewrite Hs in Hr; [by left|].
  apply elem_of_app in Hr as [Hr|Hr]; [by left|].
  apply list_elem_of_singleton in Hr as ->. by right.
Qed.

Lemma requests_well_formed_witness :
  let r := {| url := "/api/stocks"; method := "POST";
              headers := [("Content-Type", "application/json")];
              body := aapl |} in
  r ∈ sent (run AddStockModal.component [Submit] filled_form)
  ∧ (r ∈ sent filled_form ∨ well_formed_request r).
Proof.
  intros r.
  assert (r ∈ sent (run AddStockModal.component [Submit] filled_form)) as Hr
    by (vm_compute; apply list_elem_of_here).
  split; [exact Hr|].
  exact (requests_well_formed [Submit] filled_form r Hr).
Defined.

Lemma step_settles_once (e : Event) (st : ModalState) :
  length (sent st) = (length (toasts st) + in_flight_count st)%nat →
  length (sent (step AddStockModal.component e st))
  = (length (toasts (step AddStockModal.component e st))
     + in_flight_count (step AddStockModal.component e st))%nat.
Proof.
  intros Hinv. destruct e as [b|name v|raw| |o]; try exact Hinv.
  - destruct (step_sent Submit st) as [Hs|(r & _ & Hp & Hp' & Ht & Hs)].
    + revert Hs Hinv.
      cbn [step AddStockModal.component schema submit].
      destruct (isPending st) eqn:Hp; [done|]. unfold handleSubmit.
      destruct (Zod.safeParse _ _); [|by unfold in_flight_count; cbn; rewrite Hp].
      cbn. intros Hs. apply (f_equal length) in Hs.
      rewrite length_app in Hs. cbn in Hs. lia.
    + rewrite Hs, Ht, length_app. unfold in_flight_count in *.
      rewrite Hp', Hp in *. cbn. lia.
  - cbn [step AddStockModal.component mutation].
    unfold in_flight_count in *.
    destruct (isPending st) eqn:Hp; [|by rewrite Hp].
    unfold settle. destruct (apiRequest_ok o); cbn;
      rewrite length_app; cbn; lia.
Qed.

(** X12.  Requests and notifications stay in step: at any time the number
    of requests issued is the number of notifications shown plus one when
    a request is pending.  So each request gets exactly one notification,
    and no request is issued before the one before it has ended. *)
Theorem requests_settle_once (es : list Event) :
  let st := run AddStockModal.component es (initial AddStockModal.component) in
  length (sent st) = (length (toasts st) + in_flight_count st)%nat.
Proof.
  cbn zeta. unfold run.
  assert (length (sent (initial AddStockModal.component))
          = (length (toasts (initial AddStockModal.component))
             + in_flight_count (initial AddStockModal.component))%nat) as Hinit
    by reflexivity.
  revert Hinit. generalize (initial AddStockModal.component).
  induction es as [|e es IH]; intros st Hst; [exact Hst|].
  cbn [fold_left]. apply IH. by apply step_settles_once.
Qed.

Lemma defaults_issues :
  Zod.object_issues AddStockModal.formSchema AddStockModal.defaultValues
  = map (fun km => {| Zod.code := Zod.too_small; Zod.path := [fst km];
                      Zod.message := Some (snd km) |})
        required_messages.
Proof. vm_compute. reflexivity. Qed.

(** X13.  After a submission that succeeded the form is back at its
    defaults, and these do not pass the validation: pressing submit again
    makes no request and shows the required text of each of the six string
    fields. *)
Theorem reset_form_not_resubmitted (st : ModalState) (code : nat) :
  isPending st = true →
  (200 ≤ code ≤ 299)%nat →
  let st1 := step AddStockModal.component (Settled (Responded code)) st in
  let st2 := step AddStockModal.component Submit st1 in
  sent st2 = sent st
  ∧ isPending st2 = false
  ∧ errors st2
    = map (fun km => {| Zod.code := Zod.too_small; Zod.path := [fst km];
                        Zod.message := Some (snd km) |})
          required_messages.
Proof.
  intros Hp [Hlo Hhi]. cbn zeta.
  cbn [step AddStockModal.component mutation schema submit].
  rewrite Hp. unfold settle. cbn [apiRequest_ok].
  apply Nat.leb_le in Hlo, Hhi. rewrite Hlo, Hhi. cbn [andb].
  cbn [AddStockModal.createStockMutation onSuccess].
  set (st1 := setOpen false _).
  change (isPending st1) with false. cbn match. unfold handleSubmit.
  change (values st1) with AddStockModal.defaultValues.
  rewrite safeParse_issues; rewrite defaults_issues; [|discriminate].
  done.
Qed.

Lemma reset_form_not_resubmitted_witness :
  isPending in_flight = true
  ∧ (200 ≤ 201 ≤ 299)%nat
  ∧ sent (step AddStockModal.component Submit
            (step AddStockModal.component (Settled (Responded 201)) in_flight))
    = sent in_flight.
Proof.
  split; [vm_compute; reflexivity|]. split; [lia|].
  apply (reset_form_not_resubmitted in_flight 201);
    [vm_compute; reflexivity|lia].
Defined.

(** ** The form schema and the schema it extends *)

Section Extend.

Implicit Types (sh aug base : Zod.ZodObject) (o : object).

Lemma object_issues_nil sh o :
  Zod.object_issues sh o = []
  ↔ ∀ kt, kt ∈ sh → Zod.parse_type (snd kt) [fst kt] (o !! fst kt) = [].
Proof.
  unfold Zod.object_issues. induction sh as [|kt sh IH]; cbn [flat_map].
  - split; [|done]. intros _ kt Hkt. by apply elem_of_nil in Hkt.
  - rewrite app_nil, IH. split.
    + intros [Hh Ht] kt' [->|Hin]%elem_of_cons; [done|by apply Ht].
    + intros Hall. split; [apply Hall, list_elem_of_here|].
      intros kt' Hin. by apply Hall, list_elem_of_further.
Qed.

Lemma shape_lookup_is_Some k sh :
  is_Some (Zod.shape_lookup k sh) ↔ k ∈ sh.*1.
Proof.
  unfold Zod.shape_lookup. induction sh as [|[k' t] sh IH]; cbn.
  - split; [by intros [? ?]|by intros ?%elem_of_nil].
  - case_bool_decide as Hk; cbn.
    + split; [intros _; subst; apply list_elem_of_here|by eexists].
    + rewrite IH, elem_of_cons. intuition congruence.
Qed.

Lemma form_overrides_lookup k t :
  (k, t) ∈ form_overrides → Zod.shape_lookup k form_overrides = Some t.
Proof.
  unfold form_overrides. intros Hin.
  repeat (apply elem_of_cons in Hin as [Hin|Hin]; [by simplify_eq|]).
  by apply elem_of_nil in Hin.
Qed.

Lemma form_overrides_keys : form_overrides.*1 = stock_fields.
Proof. reflexivity. Qed.

(** When the extended schema names no other key, the extension has the
    entries of the object literal and no other. *)
Lemma extend_form_overrides base kt :
  (∀ k, k ∈ base.*1 → k ∈ stock_fields) →
  kt ∈ Zod.extend form_overrides base ↔ kt ∈ form_overrides.
Proof.
  intros Hkeys. unfold Zod.extend. rewrite elem_of_app. split.
  - intros [Hin|Hin].
    + apply list_elem_of_fmap in Hin as ([k t] & -> & Hin). cbn [fst snd].
      assert (k ∈ form_overrides.*1) as Hk.
      { rewrite form_overrides_keys. apply Hkeys.
        apply list_elem_of_fmap. by exists (k, t). }
      apply shape_lookup_is_Some in Hk as [t' Ht']. rewrite Ht'.
      cbn [default].
      unfold Zod.shape_lookup in Ht'.
      destruct (List.find _ _) as [[k'' t'']|] eqn:Hf; [|done].
      cbn in Ht'. simplify_eq.
      apply find_some in Hf as [Hin' Heq].
      apply bool_decide_eq_true in Heq. cbn in Heq. subst.
      by apply list_elem_of_In.
    + apply list_elem_of_In, filter_In in Hin as [Hin _].
      by apply list_elem_of_In.
  - intros Hin. destruct kt as [k t].
    destruct (decide (k ∈ base.*1)) as [Hk|Hk].
    + left. apply list_elem_of_fmap in Hk as ([k' t'] & -> & Hin').
      apply list_elem_of_fmap. exists (k', t'). split; [|done].
      cbn [fst snd] in *. by rewrite (form_overrides_lookup _ _ Hin).
    + right. apply list_elem_of_In, filter_In. split; [by apply list_elem_of_In|].
      apply negb_true_iff, bool_decide_eq_false. cbn [fst].
      by rewrite shape_lookup_is_Some.
Qed.

End Extend.

(** X14.  The rules of the form do not depend on the rules of the schema
    it extends: whatever schema is extended, as long as it names no key
    besides the seven fields, the form accepts exactly the payloads with a
    symbol of 1 to 5 characters, non-empty string fields and a volume of at
    least 0. *)
Theorem form_rules_independent_of_base (base : Zod.ZodObject) (o : object) :
  (∀ k, k ∈ base.*1 → k ∈ stock_fields) →
  Zod.success (Zod.safeParse (base |> Zod.extend form_overrides) (Some (JS.Obj o)))
  = valid_creation_payload o.
Proof.
  intros Hkeys. rewrite <- formSchema_verdict, formSchema_shape.
  unfold Zod.safeParse.
  destruct (Zod.object_issues (Zod.extend form_overrides base) o) eqn:Hb;
    destruct (Zod.object_issues form_overrides o) eqn:Hf; try done.
  - pose proof (proj1 (object_issues_nil _ _) Hb) as Hall.
    assert (Zod.object_issues form_overrides o = []) as Hnil; [|congruence].
    apply object_issues_nil. intros kt Hkt. apply Hall.
    by apply extend_form_overrides.
  - pose proof (proj1 (object_issues_nil _ _) Hf) as Hall.
    assert (Zod.object_issues (Zod.extend form_overrides base) o = []) as Hnil;
      [|congruence].
    apply object_issues_nil. intros kt Hkt. apply Hall.
    by apply (extend_form_overrides base).
Qed.

Lemma form_rules_independent_of_base_witness :
  (∀ k, k ∈ lax_base.*1 → k ∈ stock_fields)
  ∧ Zod.success
      (Zod.safeParse (lax_base |> Zod.extend form_overrides)
         (Some (JS.Obj (<["symbol" := JS.Str ""]> aapl))))
    = valid_creation_payload (<["symbol" := JS.Str ""]> aapl).
Proof.
  assert (∀ k, k ∈ lax_base.*1 → k ∈ stock_fields) as Hkeys.
  { intros k Hk. cbn in Hk. unfold stock_fields.
    repeat (apply elem_of_cons in Hk as [->|Hk]; [in_literal|]).
    by apply elem_of_nil in Hk. }
  split; [exact Hkeys|].
  exact (form_rules_independent_of_base lax_base _ Hkeys).
Defined.

(** ** [parseInt] on decimal numerals *)

Section ParseDecimal.

Import DecimalString.

Implicit Types (d : Decimal.uint) (rest : string).

Lemma append_cons (c : ascii) (s r : string) :
  String c s +:+ r = String c (s +:+ r).
Proof. reflexivity. Qed.

Lemma ends_number_digits rest :
  ends_number rest = true → JS.digits 10 rest = [].
Proof.
  destruct rest as [|c r]; [done|]. cbn [ends_number JS.digits].
  destruct (JS.digit_value c) as [v|]; [|done].
  intros [Hv _]%andb_true_iff. apply Z.leb_le in Hv.
  by destruct (Z.ltb_spec v 10); [lia|].
Qed.

Lemma digits_uint_fold d rest acc :
  JS.digits 10 rest = [] →
  fold_left (fun a v => a * 10 + v)
    (JS.digits 10 (NilEmpty.string_of_uint d +:+ rest)) acc
  = acc * 10 ^ Z.of_N (DecimalPos.Unsigned.usize d)
    + Z.of_N (DecimalPos.Unsigned.of_lu (Decimal.rev d)).
Proof.
  intros Hrest. revert acc.
  induction d as [|d IH|d IH|d IH|d IH|d IH|d IH|d IH|d IH|d IH|d IH];
    intros acc.
  1: { change (NilEmpty.string_of_uint Decimal.Nil +:+ rest) with rest.
       rewrite Hrest. cbn. lia. }
  all: cbn [NilEmpty.string_of_uint]; rewrite append_cons; cbn [JS.digits].
  all: change (JS.digit_value _) with (Some 0)
       || change (JS.digit_value _) with (Some 1)
       || change (JS.digit_value _) with (Some 2)
       || change (JS.digit_value _) with (Some 3)
       || change (JS.digit_value _) with (Some 4)
       || change (JS.digit_value _) with (Some 5)
       || change (JS.digit_value _) with (Some 6)
       || change (JS.digit_value _) with (Some 7)
       || change (JS.digit_value _) with (Some 8)
       || change (JS.digit_value _) with (Some 9).
  all: cbn [Z.ltb Z.compare Pos.compare Pos.compare_cont fold_left].
  all: unfold Decimal.rev at 1; cbn [Decimal.revapp DecimalPos.Unsigned.usize].
  all: rewrite DecimalPos.Unsigned.of_lu_revapp.
  all: cbn [DecimalPos.Unsigned.of_lu].
  all: rewrite IH.
  all: rewrite N2Z.inj_succ, Z.pow_succ_r by lia.
  all: rewrite N2Z.inj_add, N2Z.inj_mul, N2Z.inj_pow.
  all: rewrite ?N2Z.inj_add, ?N2Z.inj_mul; cbn [Z.of_N]; ring.
Qed.

Lemma digits_uint_value d rest :
  JS.digits 10 rest = [] →
  JS.math_int 10 (JS.digits 10 (NilEmpty.string_of_uint d +:+ rest))
  = Z.of_uint d.
Proof.
  intros Hrest. unfold JS.math_int. rewrite (digits_uint_fold d rest 0 Hrest).
  unfold Z.of_uint. by rewrite DecimalPos.Unsigned.of_uint_alt.
Qed.

Lemma digits_uint_nonempty d rest :
  d ≠ Decimal.Nil →
  JS.digits 10 (NilEmpty.string_of_uint d +:+ rest) ≠ [].
Proof. by destruct d. Qed.

Lemma trim_start_uint d rest :
  d ≠ Decimal.Nil →
  JS.trim_start (NilEmpty.string_of_uint d +:+ rest)
  = NilEmpty.string_of_uint d +:+ rest.
Proof. by destruct d. Qed.

Lemma strip_sign_uint d rest :
  d ≠ Decimal.Nil →
  JS.strip_sign (NilEmpty.string_of_uint d +:+ rest)
  = (1, NilEmpty.string_of_uint d +:+ rest).
Proof. by destruct d. Qed.

Lemma strip_prefix_zero (c : ascii) (r : string) :
  (∀ v, JS.digit_value c = Some v → v ≠ 33) →
  JS.strip_prefix (String "0" (String c r)) = (10, String "0" (String c r)).
Proof.
  intros Hc. destruct c as [[] [] [] [] [] [] [] []]; try reflexivity;
    by destruct (Hc 33).
Qed.

Lemma strip_prefix_uint d rest :
  ends_number rest = true →
  JS.strip_prefix (NilEmpty.string_of_uint d +:+ rest)
  = (10, NilEmpty.string_of_uint d +:+ rest).
Proof.
  intros Hrest. destruct d as [|d|d|d|d|d|d|d|d|d|d]; try reflexivity.
  - destruct rest as [|c r]; [reflexivity|].
    destruct c as [[] [] [] [] [] [] [] []]; try reflexivity; discriminate.
  - destruct d; [|reflexivity..].
    destruct rest as [|c r]; [reflexivity|].
    apply strip_prefix_zero. intros v Hv ->.
    cbn [ends_number] in Hrest. by rewrite Hv in Hrest.
Qed.

Lemma parseInt_uint (sign : Z) d rest :
  d ≠ Decimal.Nil →
  ends_number rest = true →
  (let '(radix, s2) := JS.strip_prefix (NilEmpty.string_of_uint d +:+ rest) in
   match JS.digits radix s2 with
   | [] => JS.NaN
   | ds => JS.of_Z (sign * JS.math_int radix ds)
   end)
  = JS.of_Z (sign * Z.of_uint d).
Proof.
  intros Hd Hrest. rewrite (strip_prefix_uint d rest Hrest).
  pose proof (digits_uint_nonempty d rest Hd) as Hne.
  pose proof (digits_uint_value d rest (ends_number_digits rest Hrest)) as Hval.
  destruct (JS.digits 10 _); [done|]. by rewrite Hval.
Qed.

End ParseDecimal.

(** A decimal numeral, followed by a text that does not continue it, is
    read as the integer it denotes and made a number. *)
Lemma parseInt_numeral (z : Z) (rest : string) :
  ends_number rest = true →
  JS.parseInt (DecimalString.NilZero.string_of_int (Z.to_int z) +:+ rest)
  = JS.of_Z z.
Proof.
  intros Hrest. rewrite <- (DecimalZ.of_to z) at 2.
  assert (∀ d, d ≠ Decimal.Nil →
               DecimalString.NilZero.string_of_uint d
               = DecimalString.NilEmpty.string_of_uint d) as Hnz
    by (by intros []).
  unfold JS.parseInt.
  destruct z as [|p|p]; cbn [Z.to_int DecimalString.NilZero.string_of_int Z.of_int].
  - rewrite Hnz, trim_start_uint, strip_sign_uint by done.
    rewrite parseInt_uint by done. by rewrite Z.mul_1_l.
  - pose proof (DecimalPos.Unsigned.to_uint_nonnil p) as Hp.
    rewrite Hnz, trim_start_uint, strip_sign_uint by done.
    rewrite parseInt_uint by done. by rewrite Z.mul_1_l.
  - pose proof (DecimalPos.Unsigned.to_uint_nonnil p) as Hp.
    rewrite Hnz by done. rewrite append_cons.
    change (JS.trim_start (String "-" ?s)) with (String "-" s).
    cbn [JS.strip_sign]. rewrite parseInt_uint by done.
    reflexivity.
Qed.

(** X15.  [parseInt] reads a decimal numeral whatever follows it: for
    every integer, the decimal rendering of the integer followed by a text
    that does not continue the number (empty, or starting with a character
    that is neither a decimal digit nor x) parses to the number nearest to
    that integer, which is the integer itself below [2^53], a rounded
    integer above, and an infinity beyond the range of binary64.  So a
    user id in a path is looked up as written, and a volume such as 12.7
    or 1e5 is cut at the first character that is not a digit. *)
Theorem parseInt_decimal (z : Z) (rest : string) :
  ends_number rest = true →
  JS.parseInt (DecimalString.NilZero.string_of_int (Z.to_int z) +:+ rest)
  = JS.of_Z z
  ∧ (Z.abs z < 2 ^ 53 → JS.of_Z z = JS.Fin (inject_Z z)).
Proof.
  intros Hrest. split; [by apply parseInt_numeral|apply of_Z_exact].
Qed.

Lemma parseInt_decimal_witness :
  ends_number ".7" = true
  ∧ JS.parseInt "-12.7" = JS.Fin (inject_Z (-12))
  ∧ JS.parseInt "9007199254740993" = JS.of_Z 9007199254740993.
Proof.
  split; [reflexivity|]. split.
  - destruct (parseInt_decimal (-12) ".7" eq_refl) as [Hparse Hexact].
    rewrite <- Hexact; [exact Hparse|done].
  - exact (proj1 (parseInt_decimal 9007199254740993 "" eq_refl)).
Defined.

(** ** The cache and the answers *)

(** X16.  A submission that succeeded touches the query cache at the keys
    under [/api/stocks] only: a query under another key keeps its flag, a
    key that was not cached stays out of the cache, and a flag that was
    set stays set. *)
Theorem success_invalidates_stocks_only
    (st : ModalState) (code : nat) (k : list string) :
  isPending st = true →
  (200 ≤ code ≤ 299)%nat →
  let st' := step AddStockModal.component (Settled (Responded code)) st in
  (¬ ["/api/stocks"] `prefix_of` k → queries st' !! k = queries st !! k)
  ∧ (queries st !! k = None → queries st' !! k = None)
  ∧ (queries st !! k = Some true → queries st' !! k = Some true).
Proof.
  intros Hp [Hlo Hhi]. cbn zeta.
  cbn [step AddStockModal.component mutation].
  rewrite Hp. unfold settle. cbn [apiRequest_ok].
  apply Nat.leb_le in Hlo, Hhi. rewrite Hlo, Hhi. cbn [andb].
  cbn. rewrite map_lookup_imap.
  repeat split.
  - intros Hk. destruct (queries st !! k) as [inv|]; [|done]. cbn.
    by rewrite bool_decide_eq_false_2, orb_false_r.
  - by intros ->.
  - by intros ->.
Qed.

Lemma success_invalidates_stocks_only_witness :
  isPending in_flight_cached = true
  ∧ (200 ≤ 201 ≤ 299)%nat
  ∧ ¬ ["/api/stocks"] `prefix_of` ["/api/portfolio"; "1"]
  ∧ queries (step AddStockModal.component (Settled (Responded 201))
               in_flight_cached) !! ["/api/portfolio"; "1"]
    = queries in_flight_cached !! ["/api/portfolio"; "1"].
Proof.
  assert (¬ ["/api/stocks"] `prefix_of` ["/api/portfolio"; "1"]) as Hk.
  { intros [l Hl]. cbn in Hl. discriminate. }
  split; [reflexivity|]. split; [lia|]. split; [exact Hk|].
  destruct (success_invalidates_stocks_only in_flight_cached 201
              ["/api/portfolio"; "1"]) as [Hother _];
    [reflexivity | lia |].
  exact (Hother Hk).
Defined.

Example success_marks_nested_stock_queries :
  queries (step AddStockModal.component (Settled (Responded 201))
             in_flight_cached) !! ["/api/stocks"; "AAPL"]
  = Some true.
Proof. vm_compute. reflexivity. Qed.

(** X17.  A 400 answer always names at least one issue: the list of
    errors in its body is never empty. *)
Theorem invalid_answer_names_issue {Store} `{IStorage Store}
    (body : option JS.value) (st : Store) :
  status (fst (post_stocks body st)) = 400%nat →
  ∃ issue errors,
    body_of (fst (post_stocks body st)) = Invalid "Invalid stock data" errors
    ∧ issue ∈ errors.
Proof.
  run_route. unfold Zod.safeParse.
  destruct body as [[| | | | |o]|];
    try (intros _; eexists _, _; split; [reflexivity|apply list_elem_of_here]).
  destruct (Zod.object_issues insertStockSchema o) as [|i l].
  - destruct (createStock _ st) as [[stock|e] s]; cbn; discriminate.
  - intros _. exists i, (i :: l). split; [reflexivity|apply list_elem_of_here].
Qed.

Lemma invalid_answer_names_issue_witness :
  status (fst (post_stocks (Some (JS.Obj ∅)) fresh_store)) = 400%nat
  ∧ ∃ issue errors,
      body_of (fst (post_stocks (Some (JS.Obj ∅)) fresh_store))
      = Invalid "Invalid stock data" errors
      ∧ issue ∈ errors.
Proof.
  split; [vm_compute; reflexivity|].
  apply (invalid_answer_names_issue (Some (JS.Obj ∅)) fresh_store).
  vm_compute; reflexivity.
Defined.

(** ** The volume field, for every text *)

(** The text of 1 followed by 309 zeros is read as an infinity, which is
    stored: neither the integer parse of the text nor 0. *)
Lemma volume_overflow_not_integer_nor_zero :
  ¬ stores_integer_parse_or_zero overflow_text.
Proof.
  assert (JS.parseInt overflow_text = JS.PosInf) as Hparse
    by (vm_compute; reflexivity).
  unfold stores_integer_parse_or_zero, stored_volume. rewrite Hparse.
  intros [(z & _ & Hz & _)|[_ Hz]]; discriminate.
Qed.

(** C10.  Whatever text is entered in the volume field, the form stores
    what [parseInt] gives for it when that is neither [NaN] nor 0, and 0
    otherwise.  What [parseInt] gives for a decimal numeral is the number
    nearest to the integer it denotes: the integer itself below [2^53], a
    rounded integer above, an infinity beyond the range of binary64.  So
    a text that does not parse, the empty one included, is submitted as
    volume 0 and passes the validation of an otherwise valid form. *)
Theorem volume_input_stored (raw : string) (st : ModalState) :
  let st1 := step AddStockModal.component (VolumeInput raw) st in
  values st1 !! "volume" = Some (JS.Num (stored_volume raw))
  ∧ ((∃ z, z ≠ 0 ∧ JS.parseInt raw = JS.of_Z z ∧ stored_volume raw = JS.of_Z z)
     ∨ ((JS.parseInt raw = JS.NaN ∨ JS.parseInt raw = JS.of_Z 0)
        ∧ stored_volume raw = JS.of_Z 0))
  ∧ whole_number (stored_volume raw)
  ∧ (∀ z rest,
        ends_number rest = true →
        raw = DecimalString.NilZero.string_of_int (Z.to_int z) +:+ rest →
        JS.parseInt raw = JS.of_Z z
        ∧ (Z.abs z < 2 ^ 53 → JS.of_Z z = JS.Fin (inject_Z z)))
  ∧ JS.parseInt "" = JS.NaN
  ∧ (JS.parseInt raw = JS.NaN →
     isPending st = false →
     symbol_ok (values st !! "symbol") = true →
     forallb (fun k => nonempty_string (values st !! k)) string_fields = true →
     ∃ data,
       data !! "volume" = Some (JS.Num (JS.of_Z 0))
       ∧ sent (step AddStockModal.component Submit st1)
         = (sent st
            ++ [mutationFn AddStockModal.createStockMutation data])%list).
Proof.
  cbn zeta. rewrite volume_input_values. fold (stored_volume raw).
  split; [apply lookup_insert_eq|].
  split; [|split; [apply stored_volume_whole|split; [|split; [reflexivity|]]]].
  - unfold stored_volume. destruct (parseInt_integer raw) as [->|[z ->]].
    + right. split; [by left|reflexivity].
    + rewrite or_zero_of_Z. destruct (decide (z = 0)) as [->|Hz].
      * right. split; [by right|reflexivity].
      * left. by exists z.
  - intros z rest Hrest ->. split; [by apply parseInt_numeral|apply of_Z_exact].
  - intros Hnan Hp Hsym Hstr.
    cbn [step AddStockModal.component schema submit isPending set_values].
    rewrite Hp. unfold stored_volume. rewrite Hnan.
    change (JS.or JS.NaN (JS.of_Z 0)) with (JS.of_Z 0).
    set (o := <["volume" := JS.Num (JS.of_Z 0)]> (values st)).
    assert (valid_creation_payload o = true) as Hv.
    { unfold valid_creation_payload, o.
      rewrite lookup_insert_eq, lookup_insert_ne, Hsym by done.
      cbn [andb]. change (volume_ok _) with true. rewrite andb_true_r.
      unfold string_fields in *. cbn [forallb] in *.
      by rewrite !lookup_insert_ne. }
    unfold handleSubmit.
    change (values (set_values o st)) with o.
    rewrite (formSchema_accepts o Hv).
    exists (Zod.strip insertStockSchema o). split.
    + rewrite lookup_strip. unfold o. by rewrite lookup_insert_eq.
    + reflexivity.
Qed.

Lemma volume_input_stored_witness :
  values (step AddStockModal.component (VolumeInput "45200000") filled_form)
    !! "volume" = Some (JS.Num (JS.Fin (inject_Z 45200000)))
  ∧ values (step AddStockModal.component (VolumeInput "12.7") filled_form)
      !! "volume" = Some (JS.Num (JS.Fin (inject_Z 12)))
  ∧ ∃ data,
      data !! "volume" = Some (JS.Num (JS.of_Z 0))
      ∧ sent (step AddStockModal.component Submit
                (step AddStockModal.component (VolumeInput "abc") filled_form))
        = (sent filled_form
           ++ [mutationFn AddStockModal.createStockMutation data])%list.
Proof.
  split; [|split].
  - destruct (volume_input_stored "45200000" filled_form)
      as (Hstored & _ & _ & Hnum & _).
    destruct (Hnum 45200000 "" eq_refl eq_refl) as [Hparse Hexact].
    rewrite Hstored. unfold stored_volume.
    rewrite Hparse, Hexact by (vm_compute; reflexivity). reflexivity.
  - destruct (volume_input_stored "12.7" filled_form)
      as (Hstored & _ & _ & Hnum & _).
    destruct (Hnum 12 ".7" eq_refl eq_refl) as [Hparse Hexact].
    rewrite Hstored. unfold stored_volume.
    rewrite Hparse, Hexact by (vm_compute; reflexivity). reflexivity.
  - destruct (volume_input_stored "abc" filled_form)
      as (_ & _ & _ & _ & _ & Hsubmit).
    apply Hsubmit; vm_compute; reflexivity.
Defined.
